(** * Daily task tracker: the record store and the statistics engine

    A shallow embedding of [app.py].  The two SQLite tables become lists of
    rows in scan order, the module-level cursor becomes an explicit [db]
    value threaded through every function, Python exceptions become the
    [Raise] branch of [result], and the pandas frames become lists of rows. *)

From Stdlib Require Import ZArith QArith Lia Ascii String.
From stdpp Require Import base option list strings gmap sorting.

Close Scope Q_scope.
Local Open Scope Z_scope.

(** ** Tables *)

(** [tasks(id INTEGER PRIMARY KEY AUTOINCREMENT, day TEXT, task TEXT)]. *)
Record task_row := TaskRow { id : Z; day : string; task : string }.

(** [progress(date TEXT, task_id INTEGER, completed BOOLEAN,
    PRIMARY KEY (date, task_id))].  The [completed] column holds the
    integer that [update_progress] stores. *)
Record progress_row := ProgressRow { date : string; task_id : Z; completed : Z }.

(** The database behind the global cursor [c].  [seq] is the counter that
    [AUTOINCREMENT] keeps for [tasks]. *)
Record db := Db { tasks : list task_row; seq : Z; progress : list progress_row }.

Global Instance task_row_eq_dec : EqDecision task_row.
Proof. solve_decision. Defined.
Global Instance progress_row_eq_dec : EqDecision progress_row.
Proof. solve_decision. Defined.

Definition empty_db : db := Db [] 0 [].

(** Python's [int(b)] and [bool(n)]. *)
Definition int_of_bool (b : bool) : Z := if b then 1 else 0.
Definition bool_of_int (n : Z) : bool := negb (n =? 0).

(** ** Database functions *)

Definition add_task (d t : string) (s : db) : db :=
  let i := seq s + 1 in
  Db (tasks s ++ [TaskRow i d t]) i (progress s).

Definition get_tasks (d : string) (s : db) : list (Z * string) :=
  (λ r, (id r, task r)) <$> filter (λ r, day r = d) (tasks s).

Definition delete_task (i : Z) (s : db) : db :=
  Db (filter (λ r, id r ≠ i) (tasks s)) (seq s) (progress s).

(** [INSERT OR REPLACE]: the row holding the key [(date, task_id)], if any,
    is deleted and the new row is appended. *)
Definition update_progress (d : string) (t : Z) (b : bool) (s : db) : db :=
  Db (tasks s) (seq s)
     (filter (λ r, ¬ (date r = d ∧ task_id r = t)) (progress s)
        ++ [ProgressRow d t (int_of_bool b)]).

(** The dict comprehension: later rows win over earlier ones. *)
Definition dict_of (rows : list (Z * Z)) : gmap Z bool :=
  foldl (λ m kv, <[kv.1 := bool_of_int kv.2]> m) ∅ rows.

Definition get_progress (d : string) (s : db) : gmap Z bool :=
  dict_of ((λ r, (task_id r, completed r)) <$> filter (λ r, date r = d) (progress s)).

Definition reset_progress (d : string) (s : db) : db :=
  Db (tasks s) (seq s) (filter (λ r, date r ≠ d) (progress s)).

Definition reset_all_progress (s : db) : db :=
  Db (tasks s) (seq s) [].

Definition get_all_progress (s : db) : list (string * Z * Z) :=
  (λ r, (date r, task_id r, completed r)) <$> progress s.

(** ** Exceptions *)

Inductive exn := ValueError.

Inductive result (A : Type) :=
  | Ok (a : A)
  | Raise (e : exn).
Global Arguments Ok {A} a.
Global Arguments Raise {A} e.

Global Instance exn_eq_dec : EqDecision exn.
Proof. solve_decision. Defined.
Global Instance result_eq_dec {A} `{EqDecision A} : EqDecision (result A).
Proof. solve_decision. Defined.

Definition bind {A B} (m : result A) (f : A → result B) : result B :=
  match m with
  | Ok a => f a
  | Raise e => Raise e
  end.

Notation "'do' x <- m ; k" := (bind m (λ x, k))
  (at level 10, x name, m at level 100, k at level 200).

(** A loop whose body may raise: the first exception aborts the whole loop. *)
Fixpoint traverse {A B} (f : A → result B) (l : list A) : result (list B) :=
  match l with
  | [] => Ok []
  | x :: l' => do y <- f x; do ys <- traverse f l'; Ok (y :: ys)
  end.

(** ** Calendar dates ([datetime.date], [pandas.Timestamp] at midnight) *)

Record cdate := CDate { year : Z; month : Z; mday : Z }.

Global Instance cdate_eq_dec : EqDecision cdate.
Proof. solve_decision. Defined.

Definition is_leap (y : Z) : bool :=
  (y mod 4 =? 0) && (negb (y mod 100 =? 0) || (y mod 400 =? 0)).

Definition days_in_month (y m : Z) : Z :=
  if (m =? 2) && is_leap y then 29
  else nth (Z.to_nat m) [-1; 31; 28; 31; 30; 31; 30; 31; 31; 30; 31; 30; 31] (-1).

Definition days_before_year (y : Z) : Z :=
  let y' := y - 1 in y' * 365 + y' / 4 - y' / 100 + y' / 400.

Definition days_before_month (y m : Z) : Z :=
  nth (Z.to_nat m) [-1; 0; 31; 59; 90; 120; 151; 181; 212; 243; 273; 304; 334] (-1)
  + (if (2 <? m) && is_leap y then 1 else 0).

Definition ymd2ord (y m d : Z) : Z :=
  days_before_year y + days_before_month y m + d.

Definition toordinal (d : cdate) : Z := ymd2ord (year d) (month d) (mday d).

(** Monday is 0, Sunday is 6. *)
Definition weekday (d : cdate) : Z := (toordinal d + 6) mod 7.

Definition day_names : list string :=
  ["Monday"; "Tuesday"; "Wednesday"; "Thursday"; "Friday"; "Saturday"; "Sunday"].

(** [strftime('%A')] and [dt.day_name()]. *)
Definition day_name (d : cdate) : string :=
  nth (Z.to_nat (weekday d)) day_names "".

(** The ordinal of the Monday that starts ISO week 1 of year [y]: the week
    that holds the year's first Thursday. *)
Definition isoweek1monday (y : Z) : Z :=
  let firstday := ymd2ord y 1 1 in
  let firstweekday := (firstday + 6) mod 7 in
  let week1monday := firstday - firstweekday in
  if 3 <? firstweekday then week1monday + 7 else week1monday.

(** [isocalendar().week]: the bare ISO-8601 week number, 1 to 53. *)
Definition isoweek (d : cdate) : Z :=
  let today := toordinal d in
  let week := (today - isoweek1monday (year d)) / 7 in
  if week <? 0 then (today - isoweek1monday (year d - 1)) / 7 + 1
  else if (52 <=? week) && (isoweek1monday (year d + 1) <=? today) then 1
  else week + 1.

Definition valid_date (d : cdate) : bool :=
  (1 <=? year d) && (year d <=? 9999) && (1 <=? month d) && (month d <=? 12)
  && (1 <=? mday d) && (mday d <=? days_in_month (year d) (month d)).

(** ** [datetime.strptime(s, '%Y-%m-%d')]

    The format compiles to the regular expression
    [(\d\d\d\d)-(1[0-2]|0[1-9]|[1-9])-(3[0-1]|[1-2]\d|0[1-9]|[1-9]| [1-9])],
    matched at the start of the string; the alternatives of a group are
    tried in order with backtracking, and text left over after the match
    is an error. *)

Definition digit (c : ascii) : option Z :=
  let n := Z.of_N (N_of_ascii c) in
  if (48 <=? n) && (n <=? 57) then Some (n - 48) else None.

Definition in_range (lo hi : Z) (c : ascii) : option Z :=
  match digit c with
  | Some n => if (lo <=? n) && (n <=? hi) then Some n else None
  | None => None
  end.

(** A regex fragment in continuation-passing style: it hands the number it
    read and the rest of the input to [k], and fails when [k] fails. *)
Definition re (B : Type) := (Z → list ascii → option B) → list ascii → option B.

(** Two characters [a] then [b] with [a] in [alo..ahi] and [b] in [blo..bhi]. *)
Definition two {B} (alo ahi blo bhi : Z) : re B := λ k cs,
  match cs with
  | a :: b :: rest =>
      match in_range alo ahi a, in_range blo bhi b with
      | Some x, Some y => k (10 * x + y) rest
      | _, _ => None
      end
  | _ => None
  end.

Definition one {B} (lo hi : Z) : re B := λ k cs,
  match cs with
  | a :: rest => match in_range lo hi a with Some x => k x rest | None => None end
  | _ => None
  end.

Definition space_one {B} : re B := λ k cs,
  match cs with
  | " "%char :: rest => one 1 9 k rest
  | _ => None
  end.

(** [r1|r2|...]: the first alternative under which the rest matches. *)
Fixpoint alt {B} (rs : list (re B)) : re B := λ k cs,
  match rs with
  | [] => None
  | r :: rs' => match r k cs with Some v => Some v | None => alt rs' k cs end
  end.

Definition lit {B} (c : ascii) (k : list ascii → option B) (cs : list ascii) : option B :=
  match cs with
  | a :: rest => if decide (a = c) then k rest else None
  | [] => None
  end.

Definition re_Y {B} : re B := λ k cs,
  match cs with
  | a :: b :: c :: d :: rest =>
      match digit a, digit b, digit c, digit d with
      | Some w, Some x, Some y, Some z => k (1000 * w + 100 * x + 10 * y + z) rest
      | _, _, _, _ => None
      end
  | _ => None
  end.

Definition re_m {B} : re B := alt [two 1 1 0 2; two 0 0 1 9; one 1 9].
Definition re_d {B} : re B :=
  alt [two 3 3 0 1; two 1 2 0 9; two 0 0 1 9; one 1 9; space_one].

(** The match object: the three groups and the unconverted remainder. *)
Definition match_Ymd (cs : list ascii) : option (Z * Z * Z * list ascii) :=
  re_Y (λ y, lit "-" (re_m (λ m, lit "-" (re_d (λ d rest, Some (y, m, d, rest)))))) cs.

Definition strptime_Ymd (s : string) : result cdate :=
  match match_Ymd (list_ascii_of_string s) with
  | None => Raise ValueError
  | Some (y, m, d, rest) =>
      match rest with
      | _ :: _ => Raise ValueError
      | [] => if valid_date (CDate y m d) then Ok (CDate y m d) else Raise ValueError
      end
  end.

(** ** Orders on group keys *)

(** Chronological order, as the lexicographic order on year, month, day. *)
Definition date_le (a b : cdate) : Prop :=
  year a < year b ∨
  (year a = year b ∧ (month a < month b ∨ (month a = month b ∧ mday a ≤ mday b))).

Global Instance date_le_dec : RelDecision date_le.
Proof. intros a b. unfold date_le. apply _. Defined.

Definition date_lt (a b : cdate) : Prop := date_le a b ∧ a ≠ b.

(** The order of a two-level index. *)
Definition pair_le {A B} (R1 : relation A) (R2 : relation B) : relation (A * B) :=
  λ x y, (x.1 ≠ y.1 ∧ R1 x.1 y.1) ∨ (x.1 = y.1 ∧ R2 x.2 y.2).

Global Instance pair_le_dec {A B} `{EqDecision A} (R1 : relation A) (R2 : relation B)
  `{!RelDecision R1, !RelDecision R2} : RelDecision (pair_le R1 R2).
Proof. intros x y. unfold pair_le. apply _. Defined.

(** Sorting on a key, as in [list.sort(key=...)] and [ORDER BY]. *)
Definition by_key {A B} (R : relation B) (f : A → B) : relation A :=
  λ x y, R (f x) (f y).

Global Instance by_key_dec {A B} (R : relation B) (f : A → B) `{!RelDecision R} :
  RelDecision (by_key R f).
Proof. intros x y. unfold by_key. apply _. Defined.

(** The order in which SQLite returns the groups for
    [ORDER BY incomplete_count DESC]: by count descending, and groups of
    equal count in the reverse of the group order, that is by description
    descending. *)
Definition rank_order : relation (string * Z) :=
  λ x y, y.2 < x.2 ∨ (y.2 = x.2 ∧ String.le y.1 x.1).

Global Instance rank_order_dec : RelDecision rank_order.
Proof. intros x y. unfold rank_order. apply _. Defined.

(** ** [groupby(key).agg({'Completed': ['sum', 'count']})] *)

Definition sum_Z (l : list Z) : Z := foldr Z.add 0 l.

Record agg_row (K : Type) := AggRow { label : K; Completed_Tasks : Z; Total_Tasks : Z }.
Global Arguments AggRow {K} _ _ _.
Global Arguments label {K} _.
Global Arguments Completed_Tasks {K} _.
Global Arguments Total_Tasks {K} _.

Section groupby.
Context {A K : Type} `{EqDecision K} (R : relation K) `{!RelDecision R}.
Context (key : A → K) (val : A → Z).

(** The group labels: the distinct keys, sorted. *)
Definition group_keys (df : list A) : list K :=
  merge_sort R (remove_dups (key <$> df)).

Definition group (df : list A) (k : K) : list A := filter (λ r, key r = k) df.

Definition agg (df : list A) (k : K) : agg_row K :=
  AggRow k (sum_Z (val <$> group df k)) (Z.of_nat (length (group df k))).

Definition groupby (df : list A) : list (agg_row K) := agg df <$> group_keys df.
End groupby.

(** [completed / total * 100].  Python's floats are modelled by exact
    rationals. *)
Definition rate (completed total : Z) : Q :=
  (inject_Z completed / inject_Z total * 100)%Q.

(** The frame with its rate column appended. *)
Definition with_rate {K} (fr : list (agg_row K)) : list (agg_row K * Q) :=
  (λ r, (r, rate (Completed_Tasks r) (Total_Tasks r))) <$> fr.

(** A row of a reindexed frame: a label missing from the frame gets NaN,
    here [None], in every column. *)
Record nullable_row := NRow {
  n_label : string; n_Completed : option Z; n_Total : option Z; n_Rate : option Q }.

Definition reindex (labels : list string) (fr : list (agg_row string * Q))
  : list nullable_row :=
  (λ l, match list_find (λ r, label r.1 = l) fr with
        | Some (_, (r, q)) =>
            NRow l (Some (Completed_Tasks r)) (Some (Total_Tasks r)) (Some q)
        | None => NRow l None None None
        end) <$> labels.

(** ** [get_weekly_progress] *)

Definition get_weekly_progress (s : db) : result (list (string * Q)) :=
  let dates := merge_sort String.le (remove_dups (date <$> progress s)) in
  do progress_data <-
    traverse (λ date_str,
      do date_obj <- strptime_Ymd date_str;
      let day_name := day_name date_obj in
      let total_tasks := Z.of_nat (length (get_tasks day_name s)) in
      let completed_tasks :=
        Z.of_nat (length (filter (λ r, date r = date_str ∧ completed r = 1) (progress s))) in
      let percentage :=
        if 0 <? total_tasks then rate completed_tasks total_tasks else 0%Q in
      Ok (date_str, percentage)) dates;
  Ok (merge_sort (by_key String.le fst) progress_data).

(** ** [calculate_statistics] *)


(** A row of the frame [df]; the [Week] and [Day_Name] columns are computed
    from [Date]. *)
Record frame_row := FrameRow { Date : cdate; Completed : Z }.

Definition Week (r : frame_row) : Z := isoweek (Date r).
Definition Day_Name (r : frame_row) : string := day_name (Date r).

Record overall_stats := Overall {
  total_tasks : Z; completed_tasks : Z; completion_rate : Q }.

Record statistics := Statistics {
  overall : overall_stats;
  daily : list (agg_row cdate * Q);
  weekly : list (agg_row Z * Q);
  daywise : list nullable_row;
  heatmap : list (agg_row (cdate * string)) }.

Section pandas.
(** [pd.to_datetime] on one cell.  pandas is not part of the program: its
    parser is a parameter, and [Raise] is where it raises.  pandas settles
    on one format for the whole column; the parameter stands for the parser
    of that format. *)
Variable to_datetime : string → result cdate.

(** [pd.DataFrame(data, columns=['Date', 'Completed'])] followed by the
    conversion of the two columns. *)
Definition make_frame (data : list (string * Z)) : result (list frame_row) :=
  traverse (λ row, do d <- to_datetime row.1; Ok (FrameRow d row.2)) data.

Definition calculate_statistics (s : db) : result (option statistics) :=
  let data := (λ r, (date r, completed r)) <$> progress s in
  match data with
  | [] => Ok None
  | _ :: _ =>
      do df <- make_frame data;
      let total_tasks := Z.of_nat (length df) in
      let completed_tasks := sum_Z (Completed <$> df) in
      let overall_completion_rate :=
        if 0 <? total_tasks then rate completed_tasks total_tasks else 0%Q in
      let daily_stats := with_rate (groupby date_le Date Completed df) in
      let weekly_stats := with_rate (groupby Z.le Week Completed df) in
      let daywise_stats :=
        reindex day_names (with_rate (groupby String.le Day_Name Completed df)) in
      let heatmap_data :=
        groupby (pair_le date_le String.le) (λ r, (Date r, Day_Name r)) Completed df in
      Ok (Some (Statistics
                  (Overall total_tasks completed_tasks overall_completion_rate)
                  daily_stats weekly_stats daywise_stats heatmap_data))
  end.
End pandas.

(** ** The frequently-incomplete ranking of [show_insights] *)

(** [progress JOIN tasks ON progress.task_id = tasks.id WHERE
    progress.completed = 0], projected on [tasks.task]. *)
Definition incomplete_join (s : db) : list string :=
  p ← filter (λ p, completed p = 0) (progress s);
  t ← filter (λ t, id t = task_id p) (tasks s);
  [task t].

(** [GROUP BY tasks.task] with [COUNT( * )]. *)
Definition incomplete_counts (s : db) : list (string * Z) :=
  let j := incomplete_join s in
  (λ k, (k, Z.of_nat (length (filter (λ x, x = k) j))))
    <$> merge_sort String.le (remove_dups j).

(** [ORDER BY incomplete_count DESC LIMIT 5]. *)
Definition incomplete_tasks (s : db) : list (string * Z) :=
  take 5 (merge_sort rank_order (incomplete_counts s)).

(** ** Well-formed stores *)

(** Every cell of the [completed] column is 0 or 1. *)
Definition bool_column (s : db) : Prop :=
  Forall (λ r, completed r = 0 ∨ completed r = 1) (progress s).

(** Every date of the log is accepted by the parser [p]. *)
Definition dates_parse (p : string → result cdate) (s : db) : Prop :=
  Forall (λ r, ∃ d, p (date r) = Ok d) (progress s).

(** The key under which a record is grouped: [f] of its parsed date. *)
Definition parsed_key {K} (p : string → result cdate) (f : cdate → K)
    (r : progress_row) : option K :=
  match p (date r) with
  | Ok d => Some (f d)
  | Raise _ => None
  end.

(** The records of the log whose key is [k]. *)
Definition records_with {K} `{EqDecision K} (p : string → result cdate)
    (f : cdate → K) (k : K) (s : db) : list progress_row :=
  filter (λ r, parsed_key p f r = Some k) (progress s).

(** The number of records marked completed. *)
Definition count_done (rows : list progress_row) : Z :=
  Z.of_nat (length (filter (λ r, completed r = 1) rows)).

(** [df] is the frame that [make_frame] builds from the log of [s]. *)
Definition frame_of (p : string → result cdate) (s : db) (df : list frame_row) : Prop :=
  Forall2 (λ r fr, p (date r) = Ok (Date fr) ∧ Completed fr = completed r)
    (progress s) df.

(** The number of tasks now assigned to the weekday of the date [d]. *)
Definition assigned_count (s : db) (d : cdate) : Z :=
  Z.of_nat (length (filter (λ t, day t = day_name d) (tasks s))).

(** The number of records of the date string [d] that are completed. *)
Definition completed_on (s : db) (d : string) : Z :=
  Z.of_nat (length (filter (λ r, date r = d ∧ completed r = 1) (progress s))).

(** The record [p] refers to a task that still exists. *)
Definition has_task (s : db) (p : progress_row) : Prop :=
  Exists (λ t, id t = task_id p) (tasks s).

Global Instance has_task_dec s p : Decision (has_task s p).
Proof. unfold has_task. apply _. Defined.

(** The store without the records of deleted tasks. *)
Definition drop_dangling (s : db) : db :=
  Db (tasks s) (seq s) (filter (has_task s) (progress s)).

(** The records marked not completed whose task exists and is described
    by [k]. *)
Definition incomplete_records (s : db) (k : string) : list progress_row :=
  filter (λ p, completed p = 0 ∧ Exists (λ t, id t = task_id p ∧ task t = k) (tasks s))
    (progress s).

(** [id] is the primary key of [tasks]. *)
Definition unique_ids (s : db) : Prop := NoDup (id <$> tasks s).

(** The writes that the pages perform on the store. *)
Inductive op :=
  | AddTask (d t : string)
  | DeleteTask (i : Z)
  | UpdateProgress (d : string) (t : Z) (b : bool)
  | ResetProgress (d : string)
  | ResetAllProgress.

Definition run_op (s : db) (o : op) : db :=
  match o with
  | AddTask d t => add_task d t s
  | DeleteTask i => delete_task i s
  | UpdateProgress d t b => update_progress d t b s
  | ResetProgress d => reset_progress d s
  | ResetAllProgress => reset_all_progress s
  end.

(** The pages pass [strftime('%Y-%m-%d')] of a date to [update_progress]. *)
Definition well_dated (o : op) : Prop :=
  match o with
  | UpdateProgress d _ _ => ∃ dobj, strptime_Ymd d = Ok dobj
  | _ => True
  end.

Definition run (ops : list op) : db := foldl run_op empty_db ops.

(** What every store reached from the empty one satisfies. *)
Definition store_inv (s : db) : Prop :=
  bool_column s ∧ dates_parse strptime_Ymd s ∧ unique_ids s
  ∧ Forall (λ t, id t ≤ seq s) (tasks s).

(** Every record belongs to a task that is now assigned to the weekday of
    the record's date: the log holds no record of a deleted task. *)
Definition records_assigned (s : db) : Prop :=
  Forall (λ r, match strptime_Ymd (date r) with
               | Ok dobj => task_id r ∈ (get_tasks (day_name dobj) s).*1
               | Raise _ => True
               end) (progress s).

(** The store without the task [i] and without its records. *)
Definition purge_task (i : Z) (s : db) : db :=
  Db (filter (λ t, id t ≠ i) (tasks s)) (seq s)
     (filter (λ p, task_id p ≠ i) (progress s)).

(** The sample store used to exercise the theorems: three tasks are added,
    the two Monday tasks are ticked on Monday 2024-01-01, the Tuesday task
    is left open on 2024-01-02. *)
Definition sample_db : db :=
  update_progress "2024-01-02" 3 false
    (update_progress "2024-01-01" 2 true
       (update_progress "2024-01-01" 1 true
          (add_task "Tuesday" "c" (add_task "Monday" "b" (add_task "Monday" "a" empty_db))))).

(** ** [strftime('%Y-%m-%d')] *)

Definition digit_char (n : Z) : ascii := ascii_of_N (Z.to_N (48 + n)).

(** [%m] and [%d]: two digits, zero padded. *)
Definition digits2 (n : Z) : list ascii :=
  [digit_char (n / 10); digit_char (n mod 10)].

(** [%Y] as the C library prints it: the decimal year, not padded. *)
Definition digits_Y (y : Z) : list ascii :=
  if y <? 10 then [digit_char y]
  else if y <? 100 then [digit_char (y / 10); digit_char (y mod 10)]
  else if y <? 1000 then
    [digit_char (y / 100); digit_char (y / 10 mod 10); digit_char (y mod 10)]
  else
    [digit_char (y / 1000); digit_char (y / 100 mod 10);
     digit_char (y / 10 mod 10); digit_char (y mod 10)].

Definition strftime_Ymd (d : cdate) : string :=
  string_of_list_ascii
    (digits_Y (year d) ++ "-"%char :: digits2 (month d) ++ "-"%char :: digits2 (mday d)).

(** ** [motivational_message] *)

Definition motivational_message (completion_rate : Q) : string :=
  if Qeq_bool completion_rate 100 then
    "Excellent work! You've completed all your tasks. Keep up the great discipline!"
  else if Qle_bool 80 completion_rate then
    "Great job! You're on track. Aim for 100% tomorrow!"
  else if Qle_bool 50 completion_rate then
    "Good effort! Try to push a bit more for better results."
  else
    "Don't give up! Identify obstacles and strive to improve your completion rate.".

(** ** [show_today_tasks] *)

(** [d[k] = v] on a dict kept in insertion order: an existing key keeps
    its place. *)
Fixpoint dict_set (k : Z) (v : bool) (d : list (Z * bool)) : list (Z * bool) :=
  match d with
  | [] => [(k, v)]
  | (k', v') :: d' =>
      if decide (k' = k) then (k, v) :: d' else (k', v') :: dict_set k v d'
  end.

(** What one run of the page leaves behind: the script is restarted after a
    reset, or it renders the counts and the ratio of the progress bar, or
    it reports that the day has no tasks. *)
Inductive today_outcome :=
  | Rerun (s : db)
  | Rendered (s : db) (completed_tasks total_tasks : Z) (progress_ratio : Q)
  | NoTasks (s : db).

(** The clock, the reset button and the checkboxes are the inputs of the
    page: [checkbox label value key] is what [st.checkbox] returns, which
    is [value] for a box that the user has not touched. *)
Definition show_today_tasks (today : cdate) (reset_clicked : bool)
    (checkbox : string → bool → string * Z → bool) (s : db) : today_outcome :=
  let day_name := day_name today in
  let date_str := strftime_Ymd today in
  let tasks := get_tasks day_name s in
  let progress := get_progress date_str s in
  if reset_clicked then Rerun (reset_progress date_str s)
  else
    let total_tasks := Z.of_nat (length tasks) in
    if 0 <? total_tasks then
      let updated_progress :=
        foldl (λ acc row,
                 let completed := default false (progress !! row.1) in
                 dict_set row.1 (checkbox row.2 completed (date_str, row.1)) acc)
              [] tasks in
      let s' :=
        foldl (λ s kv, update_progress date_str kv.1 kv.2 s) s updated_progress in
      let completed_tasks :=
        Z.of_nat (length (filter (λ kv, kv.2 = true) updated_progress)) in
      let progress_ratio := (inject_Z completed_tasks / inject_Z total_tasks)%Q in
      Rendered s' completed_tasks total_tasks progress_ratio
    else NoTasks s.

(** The second loop of [show_today_tasks]: the dict is written back to the
    log, item by item. *)
Definition write_back (d : string) (s : db) (items : list (Z * bool)) : db :=
  foldl (λ s kv, update_progress d kv.1 kv.2 s) s items.

Definition outcome_db (o : today_outcome) : db :=
  match o with
  | Rerun s | Rendered s _ _ _ | NoTasks s => s
  end.

(** [(date, task_id)] is the primary key of [progress]. *)
Definition unique_keys (s : db) : Prop :=
  NoDup ((λ r, (date r, task_id r)) <$> progress s).

(** ** The store: lemmas *)

Lemma bool_of_int_of_bool b : bool_of_int (int_of_bool b) = b.
Proof. by destruct b. Qed.

Lemma dict_of_snoc rows k v :
  dict_of (rows ++ [(k, v)]) = <[k := bool_of_int v]> (dict_of rows).
Proof. unfold dict_of. by rewrite foldl_app. Qed.

Lemma dict_of_app_lookup_ne rows k v k' :
  k ≠ k' → dict_of (rows ++ [(k, v)]) !! k' = dict_of rows !! k'.
Proof. intros. rewrite dict_of_snoc. by rewrite lookup_insert_ne. Qed.

(** Rows whose key is not [k] do not matter for the entry at [k]. *)
Lemma dict_of_filter_ne (rows : list (Z * Z)) (t k : Z) :
  k ≠ t →
  dict_of (filter (λ kv, kv.1 ≠ t) rows) !! k = dict_of rows !! k.
Proof.
  intros Hk. induction rows as [|[a v] rows IH] using rev_ind; [done|].
  rewrite filter_app, filter_cons, filter_nil. simpl.
  destruct (decide (a ≠ t)) as [Ha|Ha].
  - rewrite !dict_of_snoc.
    destruct (decide (a = k)) as [->|Hak].
    + by rewrite !lookup_insert_eq.
    + by rewrite !lookup_insert_ne.
  - rewrite app_nil_r, dict_of_snoc.
    rewrite lookup_insert_ne; [done|]. intros ->. by apply Ha.
Qed.

Lemma update_progress_rows d t b s :
  (λ r, (task_id r, completed r)) <$> filter (λ r, date r = d) (progress (update_progress d t b s))
  = filter (λ kv, kv.1 ≠ t) ((λ r, (task_id r, completed r)) <$> filter (λ r, date r = d) (progress s))
    ++ [(t, int_of_bool b)].
Proof.
  simpl. rewrite filter_app, filter_cons, filter_nil, decide_True by done.
  rewrite fmap_app. f_equal.
  induction (progress s) as [|r l IH]; [done|].
  rewrite !filter_cons.
  destruct (decide (date r = d)) as [Hd|Hd]; destruct (decide (task_id r = t)) as [Ht|Ht].
  - rewrite decide_False by tauto. simpl.
    rewrite filter_cons, decide_False by (simpl; tauto). done.
  - rewrite decide_True by tauto. rewrite filter_cons, decide_True by done. simpl.
    rewrite filter_cons, decide_True by done. by f_equal.
  - rewrite decide_True by tauto. rewrite filter_cons, decide_False by done. done.
  - rewrite decide_True by tauto. rewrite filter_cons, decide_False by done. done.
Qed.

Lemma update_progress_other_date d t b s d' :
  d' ≠ d →
  filter (λ r, date r = d') (progress (update_progress d t b s))
  = filter (λ r, date r = d') (progress s).
Proof.
  intros Hd. simpl.
  rewrite filter_app, filter_cons, filter_nil, decide_False, app_nil_r by (simpl; congruence).
  induction (progress s) as [|r l IH]; [done|].
  rewrite !filter_cons.
  destruct (decide (date r = d')) as [Hr|Hr].
  - rewrite decide_True by (intros [? _]; congruence).
    rewrite filter_cons, decide_True by done. by f_equal.
  - case_decide; [|done]. by rewrite filter_cons, decide_False.
Qed.

Lemma update_progress_single d t b s :
  filter (λ r, date r = d ∧ task_id r = t) (progress (update_progress d t b s))
  = [ProgressRow d t (int_of_bool b)].
Proof.
  simpl. rewrite filter_app, filter_cons, filter_nil, decide_True by done.
  replace (filter _ (filter _ (progress s))) with (@nil progress_row); [done|].
  induction (progress s) as [|r l IH]; [done|].
  rewrite filter_cons. case_decide as Hr; [|done].
  by rewrite filter_cons, decide_False.
Qed.

(** C9. After [update_progress d t b], [get_progress d] maps [t] to exactly
    [b], its entries for every other task id are unchanged, the rows of
    every other date are unchanged, and the table holds a single row for
    the key [(d, t)]: a repeated write overwrites, it does not add. *)
Theorem update_progress_get_progress (d : string) (t : Z) (b : bool) (s : db) :
  get_progress d (update_progress d t b s) !! t = Some b
  ∧ (∀ t', t' ≠ t →
        get_progress d (update_progress d t b s) !! t' = get_progress d s !! t')
  ∧ (∀ d', d' ≠ d →
        filter (λ r, date r = d') (progress (update_progress d t b s))
        = filter (λ r, date r = d') (progress s))
  ∧ filter (λ r, date r = d ∧ task_id r = t) (progress (update_progress d t b s))
    = [ProgressRow d t (int_of_bool b)]
  ∧ tasks (update_progress d t b s) = tasks s.
Proof.
  unfold get_progress. rewrite update_progress_rows. repeat split.
  - by rewrite dict_of_snoc, lookup_insert_eq, bool_of_int_of_bool.
  - intros t' Ht. rewrite dict_of_app_lookup_ne by done. by apply dict_of_filter_ne.
  - intros d' Hd. by apply update_progress_other_date.
  - apply update_progress_single.
Qed.

(** ** Sums *)

Lemma sum_Z_nil : sum_Z [] = 0.
Proof. reflexivity. Qed.

Lemma sum_Z_cons x l : sum_Z (x :: l) = x + sum_Z l.
Proof. reflexivity. Qed.

Ltac sum_step := rewrite ?fmap_nil, ?fmap_cons, ?sum_Z_nil, ?sum_Z_cons.

Lemma sum_Z_ext {K} (f g : K → Z) ks :
  (∀ k, f k = g k) → sum_Z (f <$> ks) = sum_Z (g <$> ks).
Proof. intros E. induction ks as [|k ks IH]; sum_step; [done|]. by rewrite E, IH. Qed.

Lemma sum_Z_plus {K} (f g : K → Z) ks :
  sum_Z ((λ k, f k + g k) <$> ks) = sum_Z (f <$> ks) + sum_Z (g <$> ks).
Proof. induction ks as [|k ks IH]; sum_step; [done|]. rewrite IH. lia. Qed.

Lemma sum_Z_zero {K} (ks : list K) : sum_Z ((λ _, 0) <$> ks) = 0.
Proof. induction ks as [|k ks IH]; sum_step; [done|]. rewrite IH. lia. Qed.

Lemma sum_Z_ones {A} (l : list A) : sum_Z ((λ _, 1) <$> l) = Z.of_nat (length l).
Proof.
  induction l as [|x l IH]; sum_step; [done|].
  rewrite IH, length_cons. lia.
Qed.

Lemma sum_Z_indicator_out {K} `{EqDecision K} (k0 : K) (c : Z) ks :
  k0 ∉ ks → sum_Z ((λ k, if decide (k0 = k) then c else 0) <$> ks) = 0.
Proof.
  induction ks as [|k ks IH]; intros Hout; sum_step; [done|].
  apply not_elem_of_cons in Hout as [Hne Hout].
  rewrite decide_False, IH by done. lia.
Qed.

(** Over a duplicate-free list of keys, the indicator of one of its members
    is hit exactly once. *)
Lemma sum_Z_indicator {K} `{EqDecision K} (k0 : K) (c : Z) ks :
  NoDup ks → k0 ∈ ks →
  sum_Z ((λ k, if decide (k0 = k) then c else 0) <$> ks) = c.
Proof.
  induction 1 as [|k ks Hk Hnd IH]; intros Hin.
  - by apply elem_of_nil in Hin.
  - sum_step. apply elem_of_cons in Hin as [->|Hin].
    + rewrite decide_True, sum_Z_indicator_out by done. lia.
    + rewrite decide_False by (intros ->; done). rewrite IH by done. lia.
Qed.

Lemma sum_Z_bounds (l : list Z) :
  Forall (λ x, 0 ≤ x ≤ 1) l → 0 ≤ sum_Z l ≤ Z.of_nat (length l).
Proof.
  induction 1 as [|x l Hx Hl IH]; [done|].
  rewrite sum_Z_cons, length_cons. lia.
Qed.

(** ** Grouping *)

Section groupby_facts.
Context {A K : Type} `{EqDecision K} (R : relation K) `{!RelDecision R}.
Context (key : A → K) (val : A → Z).
Implicit Types (df : list A) (k : K).

Lemma elem_of_group_keys df k : k ∈ group_keys R key df ↔ ∃ r, r ∈ df ∧ key r = k.
Proof.
  unfold group_keys.
  rewrite merge_sort_Permutation, elem_of_remove_dups, list_elem_of_fmap.
  split; intros (r & H1 & H2); eauto.
Qed.

Lemma group_keys_NoDup df : NoDup (group_keys R key df).
Proof.
  unfold group_keys. rewrite merge_sort_Permutation. apply NoDup_remove_dups.
Qed.

Lemma group_keys_sorted `{!Transitive R, !Total R} df :
  StronglySorted R (group_keys R key df).
Proof. apply StronglySorted_merge_sort; apply _. Qed.

Lemma groupby_labels df : label <$> groupby R key val df = group_keys R key df.
Proof.
  unfold groupby. rewrite <- list_fmap_compose.
  induction (group_keys R key df) as [|k ks IH]; [done|].
  rewrite fmap_cons. by f_equal.
Qed.

Lemma elem_of_groupby df (row : agg_row K) :
  row ∈ groupby R key val df ↔ ∃ r, r ∈ df ∧ row = agg key val df (key r).
Proof.
  unfold groupby. rewrite list_elem_of_fmap. split.
  - intros (k & -> & Hk). apply elem_of_group_keys in Hk as (r & Hr & <-). eauto.
  - intros (r & Hr & ->). exists (key r). split; [done|].
    apply elem_of_group_keys. eauto.
Qed.

Lemma sum_group_cons (w : A → Z) r df k :
  sum_Z (w <$> group key (r :: df) k)
  = (if decide (key r = k) then w r else 0) + sum_Z (w <$> group key df k).
Proof.
  unfold group. rewrite filter_cons.
  case_decide; [by rewrite fmap_cons, sum_Z_cons|lia].
Qed.

(** The groups of a duplicate-free list of keys that covers the frame
    partition it: summing a weight group by group sums it over the
    frame. *)
Lemma sum_partition (w : A → Z) ks df :
  NoDup ks → (∀ r, r ∈ df → key r ∈ ks) →
  sum_Z ((λ k, sum_Z (w <$> group key df k)) <$> ks) = sum_Z (w <$> df).
Proof.
  intros Hnd. induction df as [|r df IH]; intros Hcov.
  - rewrite (sum_Z_ext _ (λ _, 0)) by done. apply sum_Z_zero.
  - rewrite (sum_Z_ext _ _ _ (sum_group_cons w r df)), sum_Z_plus.
    rewrite sum_Z_indicator; [|done|apply Hcov; left].
    rewrite IH; [by rewrite fmap_cons, sum_Z_cons|].
    intros r' Hr'. apply Hcov. by right.
Qed.

Lemma groupby_sum_completed df :
  sum_Z (Completed_Tasks <$> groupby R key val df) = sum_Z (val <$> df).
Proof.
  unfold groupby. rewrite <- list_fmap_compose.
  rewrite (sum_Z_ext _ (λ k, sum_Z (val <$> group key df k))) by done.
  apply sum_partition; [apply group_keys_NoDup|].
  intros r Hr. apply elem_of_group_keys. eauto.
Qed.

Lemma groupby_sum_total df :
  sum_Z (Total_Tasks <$> groupby R key val df) = Z.of_nat (length df).
Proof.
  unfold groupby. rewrite <- list_fmap_compose.
  rewrite (sum_Z_ext _ (λ k, sum_Z ((λ _, 1) <$> group key df k)))
    by (intros k; simpl; by rewrite sum_Z_ones).
  rewrite sum_partition, sum_Z_ones; [done|apply group_keys_NoDup|].
  intros r Hr. apply elem_of_group_keys. eauto.
Qed.

(** A group of the frame is never empty. *)
Lemma agg_total_pos df r : r ∈ df → 1 ≤ Total_Tasks (agg key val df (key r)).
Proof.
  intros Hr. simpl.
  assert (r ∈ group key df (key r)) as Hin by (by apply list_elem_of_filter).
  destruct (group key df (key r)); [by apply elem_of_nil in Hin|].
  rewrite length_cons. lia.
Qed.

Lemma sum_Z_count_ones (l : list A) :
  Forall (λ r, val r = 0 ∨ val r = 1) l →
  sum_Z (val <$> l) = Z.of_nat (length (filter (λ r, val r = 1) l)).
Proof.
  induction 1 as [|r l Hr Hl IH]; [done|].
  rewrite fmap_cons, sum_Z_cons, filter_cons, IH.
  case_decide; [rewrite length_cons|]; lia.
Qed.
End groupby_facts.

(** ** Rates *)

Lemma rate_bounds (c t : Z) :
  0 ≤ c ≤ t → 1 ≤ t → (0 <= rate c t)%Q ∧ (rate c t <= 100)%Q.
Proof.
  intros Hc Ht. unfold rate.
  assert (0 <= inject_Z c / inject_Z t)%Q as H0.
  { apply Qle_shift_div_l; [change 0%Q with (inject_Z 0); rewrite <- Zlt_Qlt; lia|].
    rewrite Qmult_0_l. change 0%Q with (inject_Z 0). rewrite <- Zle_Qle. lia. }
  assert (inject_Z c / inject_Z t <= 1)%Q as H1.
  { apply Qle_shift_div_r; [change 0%Q with (inject_Z 0); rewrite <- Zlt_Qlt; lia|].
    rewrite Qmult_1_l. rewrite <- Zle_Qle. lia. }
  split.
  - apply Qmult_le_0_compat; [done|]. by compute.
  - apply Qle_trans with (1 * 100)%Q; [|by compute].
    apply Qmult_le_compat_r; [done|]. by compute.
Qed.

(** ** Loops that may raise *)

Lemma traverse_Ok_inv {A B} (f : A → result B) l ys :
  traverse f l = Ok ys → Forall2 (λ x y, f x = Ok y) l ys.
Proof.
  revert ys. induction l as [|x l IH]; intros ys; simpl.
  - intros [= <-]. constructor.
  - destruct (f x) as [y|e] eqn:Hx; [|done]. simpl.
    destruct (traverse f l) as [ys'|e]; [|done]. simpl.
    intros [= <-]. constructor; auto.
Qed.

Lemma traverse_Ok {A B} (f : A → result B) l :
  Forall (λ x, ∃ y, f x = Ok y) l → ∃ ys, traverse f l = Ok ys.
Proof.
  induction 1 as [|x l [y Hy] Hl [ys IH]]; simpl; [by eexists|].
  rewrite Hy, IH. simpl. by eexists.
Qed.

(** One failing element makes the whole loop raise. *)
Lemma traverse_Raise {A B} (f : A → result B) l x :
  x ∈ l → f x = Raise ValueError → traverse f l = Raise ValueError.
Proof.
  intros Hin Hx. induction l as [|a l IH]; [by apply elem_of_nil in Hin|].
  simpl. apply elem_of_cons in Hin as [<-|Hin].
  - by rewrite Hx.
  - destruct (f a) as [y|[]]; [|done]. simpl. by rewrite IH.
Qed.

Lemma Forall2_filter_length {A B} (Rel : A → B → Prop) (P : A → Prop) (Q : B → Prop)
    `{∀ x, Decision (P x), ∀ y, Decision (Q y)} l1 l2 :
  Forall2 (λ x y, Rel x y ∧ (P x ↔ Q y)) l1 l2 →
  Forall2 Rel (filter P l1) (filter Q l2).
Proof.
  induction 1 as [|x y l1 l2 [Hxy Hiff] Hl IH]; [constructor|].
  rewrite !filter_cons.
  destruct (decide (P x)) as [HP|HP].
  - rewrite decide_True by tauto. by constructor.
  - rewrite decide_False by tauto. done.
Qed.

(** ** The frame *)

Section frame_facts.
Variable to_datetime : string → result cdate.
Context {K : Type} `{EqDecision K} (f : cdate → K).
Implicit Types (s : db) (df : list frame_row).

Lemma make_frame_Ok s :
  dates_parse to_datetime s →
  ∃ df, make_frame to_datetime ((λ r, (date r, completed r)) <$> progress s) = Ok df
        ∧ frame_of to_datetime s df.
Proof.
  unfold dates_parse, frame_of, make_frame.
  induction 1 as [|r l [d Hd] Hl (df & Hdf & IH)]; [by eexists|].
  rewrite fmap_cons. cbn [traverse fst snd]. rewrite Hd. cbn [bind].
  rewrite Hdf. cbn [bind].
  eexists. split; [done|]. by constructor.
Qed.

Lemma frame_of_length s df : frame_of to_datetime s df → length df = length (progress s).
Proof. intros Hf. symmetry. by eapply Forall2_length. Qed.

Lemma frame_of_sum s df :
  frame_of to_datetime s df → sum_Z (Completed <$> df) = sum_Z (completed <$> progress s).
Proof.
  unfold frame_of. induction 1 as [|r fr l df [_ Hc] Hl IH]; [done|].
  rewrite !fmap_cons, !sum_Z_cons. congruence.
Qed.

(** The group of key [k] in the frame is the image of the records of the
    log whose key is [k]. *)
Lemma group_records s df k :
  frame_of to_datetime s df →
  Forall2 (λ r fr, Completed fr = completed r)
    (records_with to_datetime f k s) (group (λ fr, f (Date fr)) df k).
Proof.
  intros Hf. unfold records_with, group.
  apply Forall2_filter_length. unfold frame_of in Hf.
  eapply Forall2_impl; [exact Hf|].
  intros r fr [Hd Hc]. split; [done|].
  unfold parsed_key. rewrite Hd. split; [by intros [= ?]|by intros ->].
Qed.

Lemma agg_records s df k :
  frame_of to_datetime s df →
  agg (λ fr, f (Date fr)) Completed df k
  = AggRow k (sum_Z (completed <$> records_with to_datetime f k s))
             (Z.of_nat (length (records_with to_datetime f k s))).
Proof.
  intros Hf. pose proof (group_records s df k Hf) as Hg. unfold agg.
  rewrite <- (Forall2_length _ _ _ Hg). f_equal.
  induction Hg as [|r fr l1 l2 Hc Hl IH]; [done|].
  rewrite !fmap_cons, !sum_Z_cons. congruence.
Qed.

Lemma elem_of_frame_keys (R : relation K) `{!RelDecision R} s df k :
  frame_of to_datetime s df →
  k ∈ group_keys R (λ fr, f (Date fr)) df
  ↔ ∃ r, r ∈ progress s ∧ parsed_key to_datetime f r = Some k.
Proof.
  intros Hf. rewrite elem_of_group_keys. unfold frame_of in Hf. split.
  - intros (fr & Hfr & <-).
    apply list_elem_of_lookup in Hfr as [i Hi].
    destruct (Forall2_lookup_r _ _ _ _ _ Hf Hi) as (r & Hr & Hd & _).
    apply list_elem_of_lookup_2 in Hr.
    exists r. split; [done|]. unfold parsed_key. by rewrite Hd.
  - intros (r & Hr & Hk).
    apply list_elem_of_lookup in Hr as [i Hi].
    destruct (Forall2_lookup_l _ _ _ _ _ Hf Hi) as (fr & Hfr & Hd & _).
    exists fr. split; [by eapply list_elem_of_lookup_2|].
    unfold parsed_key in Hk. rewrite Hd in Hk. by injection Hk.
Qed.
End frame_facts.

(** ** [calculate_statistics]: the shape of the result *)

Section statistics_facts.
Variable to_datetime : string → result cdate.
Implicit Types (s : db) (df : list frame_row) (st : statistics).

Lemma calculate_statistics_empty s :
  progress s = [] → calculate_statistics to_datetime s = Ok None.
Proof. unfold calculate_statistics. by intros ->. Qed.

Lemma calculate_statistics_not_None s :
  progress s ≠ [] → calculate_statistics to_datetime s ≠ Ok None.
Proof.
  unfold calculate_statistics. destruct (progress s) as [|r l]; [done|].
  intros _. rewrite fmap_cons.
  destruct (make_frame _ _); simpl; done.
Qed.

(** On a non-empty log whose dates all parse, the result is the
    statistics object computed from the frame of the log. *)
Lemma calculate_statistics_some s :
  progress s ≠ [] → dates_parse to_datetime s →
  ∃ df st,
    frame_of to_datetime s df
    ∧ calculate_statistics to_datetime s = Ok (Some st)
    ∧ overall st
      = Overall (Z.of_nat (length df)) (sum_Z (Completed <$> df))
          (if 0 <? Z.of_nat (length df)
           then rate (sum_Z (Completed <$> df)) (Z.of_nat (length df)) else 0%Q)
    ∧ daily st = with_rate (groupby date_le Date Completed df)
    ∧ weekly st = with_rate (groupby Z.le Week Completed df)
    ∧ daywise st
      = reindex day_names (with_rate (groupby String.le Day_Name Completed df))
    ∧ heatmap st
      = groupby (pair_le date_le String.le) (λ r, (Date r, Day_Name r)) Completed df.
Proof.
  intros Hne Hp. destruct (make_frame_Ok to_datetime s Hp) as (df & Hdf & Hf).
  exists df. unfold calculate_statistics. cbv zeta.
  destruct (progress s) as [|r l] eqn:Hs; [done|].
  rewrite fmap_cons in Hdf |- *. rewrite Hdf. cbn [bind].
  eexists. split; [done|]. split; [done|]. by simpl.
Qed.
End statistics_facts.

Lemma with_rate_fmap {K B} (g : agg_row K → B) (fr : list (agg_row K)) :
  (λ row, g row.1) <$> with_rate fr = g <$> fr.
Proof.
  unfold with_rate. rewrite <- list_fmap_compose.
  induction fr as [|r fr IH]; [done|]. rewrite !fmap_cons. by f_equal.
Qed.

Lemma sample_db_nonempty : progress sample_db ≠ [].
Proof. done. Qed.

Lemma sample_db_dates_parse : dates_parse strptime_Ymd sample_db.
Proof. repeat constructor; by eexists. Qed.

Lemma sample_db_bool_column : bool_column sample_db.
Proof. repeat constructor; (by left) || (by right). Qed.

(** ** No data *)

(** C3. On an empty log [calculate_statistics] returns [None]; on a
    non-empty log it never returns [None], and when the dates of the log
    parse it returns a statistics object. *)
Theorem calculate_statistics_no_data (to_datetime : string → result cdate) (s : db) :
  (progress s = [] → calculate_statistics to_datetime s = Ok None)
  ∧ (progress s ≠ [] → calculate_statistics to_datetime s ≠ Ok None)
  ∧ (progress s ≠ [] → dates_parse to_datetime s →
       ∃ st, calculate_statistics to_datetime s = Ok (Some st)).
Proof.
  split; [apply calculate_statistics_empty|].
  split; [apply calculate_statistics_not_None|].
  intros Hne Hp.
  destruct (calculate_statistics_some to_datetime s Hne Hp) as (df & st & _ & Hst & _).
  by exists st.
Qed.

Lemma calculate_statistics_no_data_witness :
  calculate_statistics strptime_Ymd empty_db = Ok None
  ∧ calculate_statistics strptime_Ymd sample_db ≠ Ok None
  ∧ ∃ st, calculate_statistics strptime_Ymd sample_db = Ok (Some st).
Proof.
  destruct (calculate_statistics_no_data strptime_Ymd empty_db) as (H1 & _).
  destruct (calculate_statistics_no_data strptime_Ymd sample_db) as (_ & H2 & H3).
  split; [apply H1; reflexivity|].
  split; [apply H2, sample_db_nonempty|].
  apply H3; [apply sample_db_nonempty|apply sample_db_dates_parse].
Defined.

(** ** Malformed dates *)

(** C8. A single record whose date the parser rejects makes the whole
    computation raise: [calculate_statistics] for the pandas parser,
    [get_weekly_progress] for [strptime]. *)
Theorem malformed_date_rejects (to_datetime : string → result cdate) (s : db)
    (r : progress_row) :
  r ∈ progress s →
  (to_datetime (date r) = Raise ValueError →
     calculate_statistics to_datetime s = Raise ValueError)
  ∧ (strptime_Ymd (date r) = Raise ValueError →
       get_weekly_progress s = Raise ValueError).
Proof.
  intros Hr. split; intros Hbad.
  - unfold calculate_statistics. cbv zeta.
    assert (make_frame to_datetime ((λ r, (date r, completed r)) <$> progress s)
            = Raise ValueError) as Hraise.
    { apply traverse_Raise with (date r, completed r).
      - apply list_elem_of_fmap. eauto.
      - simpl. by rewrite Hbad. }
    destruct (progress s) as [|r0 l]; [by apply elem_of_nil in Hr|].
    rewrite fmap_cons in Hraise |- *. by rewrite Hraise.
  - unfold get_weekly_progress. cbv zeta.
    rewrite (traverse_Raise _ _ (date r)); [done| |by rewrite Hbad].
    rewrite merge_sort_Permutation, elem_of_remove_dups.
    apply list_elem_of_fmap. eauto.
Qed.

Lemma malformed_date_rejects_witness :
  let s := update_progress "01/02/2024" 1 true sample_db in
  calculate_statistics strptime_Ymd s = Raise ValueError
  ∧ get_weekly_progress s = Raise ValueError.
Proof.
  intros s.
  assert (ProgressRow "01/02/2024" 1 1 ∈ progress s) as Hin.
  { apply list_elem_of_In. vm_compute. tauto. }
  destruct (malformed_date_rejects strptime_Ymd s _ Hin) as [H1 H2].
  split; [apply H1|apply H2]; reflexivity.
Defined.

(** ** Consistency of the views *)

(** C10. On a non-empty log the overall totals are the sums of the daily
    rows and of the weekly rows, for [Total_Tasks] and for
    [Completed_Tasks] alike: each grouping partitions the same records. *)
Theorem views_consistent (to_datetime : string → result cdate) (s : db) :
  progress s ≠ [] → dates_parse to_datetime s →
  ∃ st, calculate_statistics to_datetime s = Ok (Some st)
    ∧ total_tasks (overall st) = Z.of_nat (length (progress s))
    ∧ total_tasks (overall st) = sum_Z ((λ row, Total_Tasks row.1) <$> daily st)
    ∧ total_tasks (overall st) = sum_Z ((λ row, Total_Tasks row.1) <$> weekly st)
    ∧ completed_tasks (overall st) = sum_Z (completed <$> progress s)
    ∧ completed_tasks (overall st)
      = sum_Z ((λ row, Completed_Tasks row.1) <$> daily st)
    ∧ completed_tasks (overall st)
      = sum_Z ((λ row, Completed_Tasks row.1) <$> weekly st).
Proof.
  intros Hne Hp.
  destruct (calculate_statistics_some to_datetime s Hne Hp)
    as (df & st & Hf & Hst & Ho & Hd & Hw & _).
  exists st. split; [done|]. rewrite Ho, Hd, Hw. simpl.
  rewrite !with_rate_fmap.
  rewrite !groupby_sum_total, !groupby_sum_completed.
  rewrite (frame_of_length _ _ _ Hf), (frame_of_sum _ _ _ Hf). done.
Qed.

Lemma views_consistent_witness :
  ∃ st, calculate_statistics strptime_Ymd sample_db = Ok (Some st)
    ∧ total_tasks (overall st) = 3
    ∧ total_tasks (overall st) = sum_Z ((λ row, Total_Tasks row.1) <$> daily st)
    ∧ total_tasks (overall st) = sum_Z ((λ row, Total_Tasks row.1) <$> weekly st)
    ∧ completed_tasks (overall st) = 2
    ∧ completed_tasks (overall st)
      = sum_Z ((λ row, Completed_Tasks row.1) <$> daily st)
    ∧ completed_tasks (overall st)
      = sum_Z ((λ row, Completed_Tasks row.1) <$> weekly st).
Proof.
  exact (views_consistent strptime_Ymd sample_db
           sample_db_nonempty sample_db_dates_parse).
Defined.

(** ** Orders *)

Global Instance date_le_trans : Transitive date_le.
Proof. intros a b c. unfold date_le. lia. Qed.

Global Instance date_le_total : Total date_le.
Proof. intros a b. unfold date_le. lia. Qed.

Global Instance date_le_antisym : AntiSymm (=) date_le.
Proof.
  intros [y1 m1 d1] [y2 m2 d2]. unfold date_le. simpl. intros H1 H2.
  f_equal; lia.
Qed.

(** A sorted list without duplicates is strictly sorted. *)
Lemma StronglySorted_strict {K} (R : relation K) (l : list K) :
  StronglySorted R l → NoDup l → StronglySorted (λ x y, R x y ∧ x ≠ y) l.
Proof.
  induction 1 as [|k l Hl IH Hk]; intros Hnd; constructor.
  - apply IH. by apply NoDup_cons in Hnd as [_ ?].
  - apply NoDup_cons in Hnd as [Hout _].
    rewrite Forall_forall in Hk |- *. intros x Hx. split; [by apply Hk|].
    by intros ->.
Qed.

Lemma StronglySorted_impl {K} (R1 R2 : relation K) (l : list K) :
  (∀ x y, R1 x y → R2 x y) → StronglySorted R1 l → StronglySorted R2 l.
Proof.
  intros Himp. induction 1 as [|k l Hl IH Hk]; constructor; [done|].
  eapply Forall_impl; [exact Hk|]. auto.
Qed.

Lemma group_keys_strict {A K} `{EqDecision K} (R : relation K) `{!RelDecision R}
    `{!Transitive R, !Total R} (key : A → K) (df : list A) :
  StronglySorted (λ x y, R x y ∧ x ≠ y) (group_keys R key df).
Proof.
  apply StronglySorted_strict; [by apply group_keys_sorted|apply group_keys_NoDup].
Qed.

(** A duplicate-free, non-empty list with a single possible member. *)
Lemma NoDup_all_eq {K} (l : list K) (w : K) :
  NoDup l → l ≠ [] → (∀ k, k ∈ l → k = w) → l = [w].
Proof.
  intros Hnd Hne Hall. destruct l as [|a l]; [done|].
  assert (a = w) as -> by (apply Hall; left).
  destruct l as [|b l]; [done|].
  assert (b = w) as -> by (apply Hall; right; left).
  apply NoDup_cons in Hnd as [Hout _]. exfalso. apply Hout. left.
Qed.

(** ** The grouped views in terms of the log *)

Section view_facts.
Variable to_datetime : string → result cdate.
Context {K : Type} `{EqDecision K} (f : cdate → K).
Context (R : relation K) `{!RelDecision R}.
Implicit Types (s : db) (df : list frame_row).

(** A row of a grouped view carries a key that occurs in the log, the sum of
    the [completed] cells of the records with that key and their number. *)
Lemma groupby_row_records s df (row : agg_row K) :
  frame_of to_datetime s df →
  row ∈ groupby R (λ fr, f (Date fr)) Completed df →
  (∃ r, r ∈ progress s ∧ parsed_key to_datetime f r = Some (label row))
  ∧ Completed_Tasks row
    = sum_Z (completed <$> records_with to_datetime f (label row) s)
  ∧ Total_Tasks row = Z.of_nat (length (records_with to_datetime f (label row) s))
  ∧ 1 ≤ Total_Tasks row.
Proof.
  intros Hf Hrow. apply elem_of_groupby in Hrow as (fr & Hfr & ->).
  split.
  { simpl. eapply elem_of_frame_keys with (R := R); [done|].
    apply elem_of_group_keys. eauto. }
  split; [by rewrite (agg_records _ _ _ _ _ Hf)|].
  split; [by rewrite (agg_records _ _ _ _ _ Hf)|].
  by apply (agg_total_pos (λ fr, f (Date fr)) Completed df fr).
Qed.

Lemma records_with_bool_column s k :
  bool_column s →
  Forall (λ r, completed r = 0 ∨ completed r = 1) (records_with to_datetime f k s).
Proof.
  unfold bool_column, records_with. rewrite !Forall_forall.
  intros Hb r [_ Hr]%list_elem_of_filter. auto.
Qed.

(** With a 0/1 column the sum is the number of completed records, and it
    is at most the number of records. *)
Lemma groupby_row_counts s df (row : agg_row K) :
  frame_of to_datetime s df → bool_column s →
  row ∈ groupby R (λ fr, f (Date fr)) Completed df →
  Completed_Tasks row = count_done (records_with to_datetime f (label row) s)
  ∧ 0 ≤ Completed_Tasks row ≤ Total_Tasks row.
Proof.
  intros Hf Hb Hrow.
  destruct (groupby_row_records s df row Hf Hrow) as (_ & Hc & Ht & _).
  pose proof (records_with_bool_column s (label row) Hb) as Hrec.
  split.
  - rewrite Hc. unfold count_done. by apply sum_Z_count_ones.
  - rewrite Hc, Ht, <- (length_fmap completed).
    apply sum_Z_bounds, Forall_fmap. eapply Forall_impl; [exact Hrec|].
    simpl. lia.
Qed.

Lemma groupby_frame_labels s df k :
  frame_of to_datetime s df →
  k ∈ label <$> groupby R (λ fr, f (Date fr)) Completed df
  ↔ ∃ r, r ∈ progress s ∧ parsed_key to_datetime f r = Some k.
Proof.
  intros Hf. rewrite groupby_labels. by apply elem_of_frame_keys.
Qed.
End view_facts.

(** ** The daily view *)

(** C6. The daily view has one row per distinct date of the log, in
    strictly ascending order of date.  The total of a row is the number of
    records of its date, its completed count is the number of those marked
    completed, and its rate is completed / total * 100. *)
Theorem daily_view (to_datetime : string → result cdate) (s : db) :
  progress s ≠ [] → dates_parse to_datetime s → bool_column s →
  ∃ st, calculate_statistics to_datetime s = Ok (Some st)
    ∧ StronglySorted date_lt ((λ row, label row.1) <$> daily st)
    ∧ (∀ d, d ∈ (λ row, label row.1) <$> daily st
            ↔ ∃ r, r ∈ progress s ∧ to_datetime (date r) = Ok d)
    ∧ (∀ row, row ∈ daily st →
         let recs := filter (λ r, to_datetime (date r) = Ok (label row.1)) (progress s) in
         Total_Tasks row.1 = Z.of_nat (length recs)
         ∧ Completed_Tasks row.1 = count_done recs
         ∧ 1 ≤ Total_Tasks row.1
         ∧ row.2 = rate (Completed_Tasks row.1) (Total_Tasks row.1)).
Proof.
  intros Hne Hp Hb.
  destruct (calculate_statistics_some to_datetime s Hne Hp)
    as (df & st & Hf & Hst & _ & Hd & _).
  exists st. split; [done|]. rewrite Hd, with_rate_fmap.
  assert (∀ d r, parsed_key to_datetime (λ d, d) r = Some d ↔ to_datetime (date r) = Ok d)
    as Hkey.
  { intros d r. unfold parsed_key. destruct (to_datetime (date r)); naive_solver. }
  assert (∀ d, records_with to_datetime (λ d, d) d s
               = filter (λ r, to_datetime (date r) = Ok d) (progress s)) as Hrec.
  { intros d. unfold records_with. apply list_filter_iff. intros r. apply Hkey. }
  split; [|split].
  - rewrite groupby_labels. apply (group_keys_strict date_le Date df).
  - intros d.
    rewrite (groupby_frame_labels to_datetime (λ d, d) date_le s df d Hf).
    split; intros (r & Hr & Hk); exists r; (split; [done|]); by apply Hkey.
  - intros [row q] [row' [[= -> ->] Hrow]]%list_elem_of_fmap. simpl.
    destruct (groupby_row_records to_datetime (λ d, d) date_le s df row' Hf Hrow)
      as (_ & _ & Ht & Hpos).
    destruct (groupby_row_counts to_datetime (λ d, d) date_le s df row' Hf Hb Hrow)
      as (Hc & _).
    rewrite Hrec in Ht, Hc. done.
Qed.

Lemma daily_view_witness :
  ∃ st, calculate_statistics strptime_Ymd sample_db = Ok (Some st)
    ∧ StronglySorted date_lt ((λ row, label row.1) <$> daily st)
    ∧ (∀ d, d ∈ (λ row, label row.1) <$> daily st
            ↔ ∃ r, r ∈ progress sample_db ∧ strptime_Ymd (date r) = Ok d)
    ∧ (∀ row, row ∈ daily st →
         let recs :=
           filter (λ r, strptime_Ymd (date r) = Ok (label row.1)) (progress sample_db) in
         Total_Tasks row.1 = Z.of_nat (length recs)
         ∧ Completed_Tasks row.1 = count_done recs
         ∧ 1 ≤ Total_Tasks row.1
         ∧ row.2 = rate (Completed_Tasks row.1) (Total_Tasks row.1)).
Proof.
  exact (daily_view strptime_Ymd sample_db
           sample_db_nonempty sample_db_dates_parse sample_db_bool_column).
Defined.

(** The example of the specification: two records on Monday 2024-01-01,
    one of them completed. *)
Example spec_example :
  let s := update_progress "2024-01-01" 2 false
             (update_progress "2024-01-01" 1 true
                (add_task "Monday" "b" (add_task "Monday" "a" empty_db))) in
  ∃ st, calculate_statistics strptime_Ymd s = Ok (Some st)
    ∧ daily st = [(AggRow (CDate 2024 1 1) 1 2, (100 # 2)%Q)]
    ∧ daywise st !! 0%nat = Some (NRow "Monday" (Some 1) (Some 2) (Some (100 # 2)%Q))
    ∧ daywise st !! 1%nat = Some (NRow "Tuesday" None None None).
Proof. eexists. split; [vm_compute; reflexivity|]. by vm_compute. Qed.

(** ** The weekly view *)

(** C5. The weekly view has one row per ISO week number of the log, in
    strictly ascending order.  The key is the bare week number: the total
    of a row counts every record whose date has that week number, whatever
    its year, and a log whose dates all have one week number yields exactly
    one row. *)
Theorem weekly_view (to_datetime : string → result cdate) (s : db) :
  progress s ≠ [] → dates_parse to_datetime s →
  ∃ st, calculate_statistics to_datetime s = Ok (Some st)
    ∧ StronglySorted Z.lt ((λ row, label row.1) <$> weekly st)
    ∧ (∀ w, w ∈ (λ row, label row.1) <$> weekly st
            ↔ ∃ r d, r ∈ progress s ∧ to_datetime (date r) = Ok d ∧ isoweek d = w)
    ∧ (∀ row, row ∈ weekly st →
         Total_Tasks row.1
         = Z.of_nat (length (filter
             (λ r, parsed_key to_datetime isoweek r = Some (label row.1)) (progress s)))
         ∧ Completed_Tasks row.1
           = sum_Z (completed <$> filter
               (λ r, parsed_key to_datetime isoweek r = Some (label row.1)) (progress s)))
    ∧ (∀ w, (∀ r d, r ∈ progress s → to_datetime (date r) = Ok d → isoweek d = w) →
            (λ row, label row.1) <$> weekly st = [w]).
Proof.
  intros Hne Hp.
  destruct (calculate_statistics_some to_datetime s Hne Hp)
    as (df & st & Hf & Hst & _ & _ & Hw & _).
  exists st. split; [done|]. rewrite Hw, with_rate_fmap.
  assert (∀ w, w ∈ label <$> groupby Z.le Week Completed df
               ↔ ∃ r d, r ∈ progress s ∧ to_datetime (date r) = Ok d ∧ isoweek d = w)
    as Hlabels.
  { intros w. rewrite (groupby_frame_labels to_datetime isoweek Z.le s df w Hf).
    unfold parsed_key. split.
    - intros (r & Hr & Hk). destruct (to_datetime (date r)) as [d|] eqn:Hd; [|done].
      exists r, d. by injection Hk.
    - intros (r & d & Hr & Hd & <-). exists r. by rewrite Hd. }
  split; [|split; [done|split]].
  - rewrite groupby_labels.
    eapply StronglySorted_impl; [|apply (group_keys_strict Z.le Week df)].
    simpl. lia.
  - intros [row q] [row' [[= -> ->] Hrow]]%list_elem_of_fmap. simpl.
    destruct (groupby_row_records to_datetime isoweek Z.le s df row' Hf Hrow)
      as (_ & Hc & Ht & _).
    done.
  - intros w Hall. apply NoDup_all_eq.
    + rewrite groupby_labels. apply group_keys_NoDup.
    + assert (∃ r d, r ∈ progress s ∧ to_datetime (date r) = Ok d)
        as (r & d & Hr & Hd).
      { unfold dates_parse in Hp. destruct (progress s) as [|r l]; [done|].
        apply Forall_cons in Hp as [[d Hd] _]. exists r, d. split; [left|done]. }
      intros Hnil.
      assert (isoweek d ∈ label <$> groupby Z.le Week Completed df) as Hin.
      { apply Hlabels. by exists r, d. }
      rewrite Hnil in Hin. by apply elem_of_nil in Hin.
    + intros k (r & d & Hr & Hd & <-)%Hlabels. by eapply Hall.
Qed.

Lemma weekly_view_witness :
  ∃ st, calculate_statistics strptime_Ymd sample_db = Ok (Some st)
    ∧ (λ row, label row.1) <$> weekly st = [1].
Proof.
  destruct (weekly_view strptime_Ymd sample_db
              sample_db_nonempty sample_db_dates_parse)
    as (st & Hst & _ & _ & _ & Hone).
  exists st. split; [done|]. apply Hone.
  intros r d Hr Hd. apply list_elem_of_In in Hr. vm_compute in Hr.
  destruct Hr as [<-|[<-|[<-|[]]]]; vm_compute in Hd; by injection Hd as <-.
Defined.

(** Monday 2023-03-20 and Monday 2024-03-18 both lie in a week 12: the two
    records land in one row. *)
Example weekly_view_merges_years :
  let s := update_progress "2024-03-18" 1 false
             (update_progress "2023-03-20" 1 true (add_task "Monday" "a" empty_db)) in
  ∃ st, calculate_statistics strptime_Ymd s = Ok (Some st)
    ∧ weekly st = [(AggRow 12 1 2, (100 # 2)%Q)].
Proof. eexists. split; [vm_compute; reflexivity|]. by vm_compute. Qed.

(** ** Reindexing *)

Lemma reindex_labels labels fr : n_label <$> reindex labels fr = labels.
Proof.
  unfold reindex. rewrite <- list_fmap_compose.
  induction labels as [|l labels IH]; [done|].
  rewrite fmap_cons. f_equal; [|done].
  simpl. by destruct (list_find _ fr) as [[? [? ?]]|].
Qed.

Lemma reindex_length labels fr : length (reindex labels fr) = length labels.
Proof. unfold reindex. by rewrite length_fmap. Qed.

(** A label that the frame lacks gets NaN in every column. *)
Lemma reindex_missing labels fr row :
  row ∈ reindex labels fr →
  n_label row ∉ (λ r, label r.1) <$> fr →
  n_Completed row = None ∧ n_Total row = None ∧ n_Rate row = None.
Proof.
  unfold reindex. intros (l & -> & Hl)%list_elem_of_fmap Hout.
  destruct (list_find _ fr) as [[i [r q]]|] eqn:Hfind; [|done].
  exfalso. apply Hout. simpl.
  apply list_find_Some in Hfind as (Hi & Hlab & _). simpl in Hlab. subst l.
  apply list_elem_of_fmap. exists (r, q). split; [done|].
  by eapply list_elem_of_lookup_2.
Qed.

(** A label that the frame has gets the cells of a row with that label. *)
Lemma reindex_present labels fr row :
  row ∈ reindex labels fr →
  n_label row ∈ (λ r, label r.1) <$> fr →
  ∃ r q, (r, q) ∈ fr ∧ label r = n_label row
         ∧ n_Completed row = Some (Completed_Tasks r)
         ∧ n_Total row = Some (Total_Tasks r)
         ∧ n_Rate row = Some q.
Proof.
  unfold reindex. intros (l & -> & Hl)%list_elem_of_fmap Hin.
  destruct (list_find _ fr) as [[i [r q]]|] eqn:Hfind.
  - apply list_find_Some in Hfind as (Hi & Hlab & _). simpl in Hlab.
    exists r, q. split; [by eapply list_elem_of_lookup_2|]. by simpl.
  - exfalso. simpl in Hin. apply list_find_None in Hfind.
    apply list_elem_of_fmap in Hin as ([r q] & Hlab & Hrq).
    rewrite Forall_forall in Hfind. by apply (Hfind _ Hrq).
Qed.

(** ** The daywise view *)

(** C4. The daywise view has exactly the seven rows Monday to Sunday, in
    that order.  The row of a weekday on which the log has no record holds
    NaN in both counts and in the rate; the row of a weekday with records
    holds their number, the sum of their [completed] cells and the rate. *)
Theorem daywise_view (to_datetime : string → result cdate) (s : db) :
  progress s ≠ [] → dates_parse to_datetime s →
  ∃ st, calculate_statistics to_datetime s = Ok (Some st)
    ∧ n_label <$> daywise st
      = ["Monday"; "Tuesday"; "Wednesday"; "Thursday"; "Friday"; "Saturday"; "Sunday"]
    ∧ length (daywise st) = 7%nat
    ∧ (∀ row, row ∈ daywise st →
         let recs := filter (λ r, parsed_key to_datetime day_name r = Some (n_label row))
                       (progress s) in
         (recs = [] →
            n_Completed row = None ∧ n_Total row = None ∧ n_Rate row = None)
         ∧ (recs ≠ [] →
              n_Completed row = Some (sum_Z (completed <$> recs))
              ∧ n_Total row = Some (Z.of_nat (length recs))
              ∧ n_Rate row
                = Some (rate (sum_Z (completed <$> recs)) (Z.of_nat (length recs))))).
Proof.
  intros Hne Hp.
  destruct (calculate_statistics_some to_datetime s Hne Hp)
    as (df & st & Hf & Hst & _ & _ & _ & Hd & _).
  exists st. split; [done|]. rewrite Hd.
  split; [apply reindex_labels|]. split; [by rewrite reindex_length|].
  intros row Hrow recs.
  assert (n_label row ∈ (λ r, label r.1) <$> with_rate (groupby String.le Day_Name Completed df)
          ↔ recs ≠ []) as Hiff.
  { rewrite with_rate_fmap.
    rewrite (groupby_frame_labels to_datetime day_name String.le s df _ Hf).
    subst recs. split.
    - intros (r & Hr & Hk) Hnil.
      assert (r ∈ filter (λ r, parsed_key to_datetime day_name r = Some (n_label row))
                    (progress s)) as Hin by (by apply list_elem_of_filter).
      rewrite Hnil in Hin. by apply elem_of_nil in Hin.
    - intros Hnn.
      destruct (filter _ (progress s)) as [|r l] eqn:Hfl; [done|].
      assert (r ∈ r :: l) as Hin by left. rewrite <- Hfl in Hin.
      apply list_elem_of_filter in Hin as [Hk Hr]. eauto. }
  split.
  - intros Hnil. apply (reindex_missing _ _ _ Hrow). rewrite Hiff. by intros ?.
  - intros Hnn. apply Hiff in Hnn.
    destruct (reindex_present _ _ _ Hrow Hnn) as (r & q & Hrq & Hlab & -> & -> & ->).
    apply list_elem_of_fmap in Hrq as (r' & [= <- ->] & Hr').
    destruct (groupby_row_records to_datetime day_name String.le s df r Hf Hr')
      as (_ & Hc & Ht & _).
    unfold records_with in Hc, Ht. rewrite Hlab in Hc, Ht. subst recs.
    by rewrite Hc, Ht.
Qed.

Lemma daywise_view_witness :
  ∃ st, calculate_statistics strptime_Ymd sample_db = Ok (Some st)
    ∧ n_label <$> daywise st
      = ["Monday"; "Tuesday"; "Wednesday"; "Thursday"; "Friday"; "Saturday"; "Sunday"]
    ∧ length (daywise st) = 7%nat.
Proof.
  destruct (daywise_view strptime_Ymd sample_db
              sample_db_nonempty sample_db_dates_parse)
    as (st & Hst & Hlab & Hlen & _).
  by exists st.
Defined.

(** ** [get_weekly_progress] *)

Lemma get_tasks_length s d :
  length (get_tasks d s) = length (filter (λ t, day t = d) (tasks s)).
Proof. unfold get_tasks. apply length_fmap. Qed.

(** The rows before the final sort: one per distinct date string, each
    with the percentage of its date. *)
Lemma get_weekly_progress_rows s :
  dates_parse strptime_Ymd s →
  ∃ data,
    get_weekly_progress s = Ok (merge_sort (by_key String.le fst) data)
    ∧ fst <$> data = merge_sort String.le (remove_dups (date <$> progress s))
    ∧ Forall (λ row, ∃ dobj, strptime_Ymd row.1 = Ok dobj
                ∧ row.2 = if 0 <? assigned_count s dobj
                          then rate (completed_on s row.1) (assigned_count s dobj)
                          else 0%Q) data.
Proof.
  intros Hp. unfold get_weekly_progress. cbv zeta.
  set (dates := merge_sort String.le (remove_dups (date <$> progress s))).
  assert (Forall (λ d, ∃ dobj, strptime_Ymd d = Ok dobj) dates) as Hdates.
  { apply Forall_forall. intros d Hd. subst dates.
    rewrite merge_sort_Permutation, elem_of_remove_dups in Hd.
    apply list_elem_of_fmap in Hd as (r & -> & Hr).
    unfold dates_parse in Hp. rewrite Forall_forall in Hp. by apply Hp. }
  clearbody dates.
  match goal with
  | |- context [traverse ?f dates] =>
      destruct (traverse_Ok f dates) as [data Hdata]
  end.
  { eapply Forall_impl; [exact Hdates|]. intros d [dobj Hd]. simpl.
    rewrite Hd. by eexists. }
  rewrite Hdata. cbn [bind]. exists data. split; [done|].
  apply traverse_Ok_inv in Hdata. revert Hdates.
  induction Hdata as [|d row dates data Hrow Hrest IH]; intros Hdates; [done|].
  apply Forall_cons in Hdates as [[dobj Hd] Hdates].
  rewrite Hd in Hrow. cbn [bind] in Hrow. injection Hrow as <-.
  destruct (IH Hdates) as [IH1 IH2]. split.
  - rewrite fmap_cons. simpl. by f_equal.
  - constructor; [|done]. exists dobj. split; [done|]. simpl.
    unfold assigned_count, completed_on. by rewrite get_tasks_length.
Qed.

(** C2. When the dates of the log parse, [get_weekly_progress] returns one
    row per distinct date string of the log and none for any other date;
    the percentage of a row is the number of completed records of its date
    over the number of tasks now assigned to its weekday, times 100, and 0
    when no task is assigned to that weekday. *)
Theorem get_weekly_progress_spec (s : db) :
  dates_parse strptime_Ymd s →
  ∃ rows, get_weekly_progress s = Ok rows
    ∧ NoDup (fst <$> rows)
    ∧ (∀ d, d ∈ fst <$> rows ↔ ∃ r, r ∈ progress s ∧ date r = d)
    ∧ (∀ d p, (d, p) ∈ rows →
         ∃ dobj, strptime_Ymd d = Ok dobj
           ∧ p = if 0 <? assigned_count s dobj
                 then rate (completed_on s d) (assigned_count s dobj)
                 else 0%Q).
Proof.
  intros Hp. destruct (get_weekly_progress_rows s Hp) as (data & Hrows & Hfst & Hall).
  eexists. split; [exact Hrows|].
  assert (fst <$> merge_sort (by_key String.le fst) data
          ≡ₚ remove_dups (date <$> progress s)) as Hperm.
  { by rewrite merge_sort_Permutation, Hfst, merge_sort_Permutation. }
  split; [|split].
  - rewrite Hperm. apply NoDup_remove_dups.
  - intros d. rewrite Hperm, elem_of_remove_dups, list_elem_of_fmap.
    split; intros (r & H1 & H2); eauto.
  - intros d p Hin. rewrite merge_sort_Permutation in Hin.
    rewrite Forall_forall in Hall. by apply (Hall (d, p)).
Qed.

Lemma get_weekly_progress_spec_witness :
  ∃ rows, get_weekly_progress sample_db = Ok rows
    ∧ NoDup (fst <$> rows)
    ∧ (∀ d, d ∈ fst <$> rows ↔ ∃ r, r ∈ progress sample_db ∧ date r = d)
    ∧ (∀ d p, (d, p) ∈ rows →
         ∃ dobj, strptime_Ymd d = Ok dobj
           ∧ p = if 0 <? assigned_count sample_db dobj
                 then rate (completed_on sample_db d) (assigned_count sample_db dobj)
                 else 0%Q).
Proof. exact (get_weekly_progress_spec sample_db sample_db_dates_parse). Defined.

Example get_weekly_progress_sample :
  get_weekly_progress sample_db = Ok [("2024-01-01", (200 # 2)%Q); ("2024-01-02", 0%Q)].
Proof. by vm_compute. Qed.

(** ** Bounds *)

Section bounds_facts.
Variable to_datetime : string → result cdate.
Context {K : Type} `{EqDecision K} (f : cdate → K).
Context (R : relation K) `{!RelDecision R}.

Lemma with_rate_bounds s df (row : agg_row K) (q : Q) :
  frame_of to_datetime s df → bool_column s →
  (row, q) ∈ with_rate (groupby R (λ fr, f (Date fr)) Completed df) →
  0 ≤ Completed_Tasks row ≤ Total_Tasks row ∧ (0 <= q)%Q ∧ (q <= 100)%Q.
Proof.
  intros Hf Hb (row' & [= -> ->] & Hrow)%list_elem_of_fmap.
  destruct (groupby_row_records to_datetime f R s df row' Hf Hrow) as (_ & _ & _ & Hpos).
  destruct (groupby_row_counts to_datetime f R s df row' Hf Hb Hrow) as (_ & Hle).
  split; [done|]. by apply rate_bounds.
Qed.
End bounds_facts.

Lemma overall_bounds (l : list Z) :
  l ≠ [] → Forall (λ x, x = 0 ∨ x = 1) l →
  let t := Z.of_nat (length l) in
  let q := if 0 <? t then rate (sum_Z l) t else 0%Q in
  0 ≤ sum_Z l ≤ t ∧ (0 <= q)%Q ∧ (q <= 100)%Q.
Proof.
  intros Hne Hl t q.
  assert (0 ≤ sum_Z l ≤ t) as Hle.
  { apply sum_Z_bounds. eapply Forall_impl; [exact Hl|]. simpl. lia. }
  assert (1 ≤ t) as Hpos by (subst t; destruct l; [done|rewrite length_cons; lia]).
  split; [done|]. subst q.
  destruct (0 <? t) eqn:Ht; [by apply rate_bounds|lia].
Qed.

(** The percentage of a [get_weekly_progress] row is never negative, and
    it is at most 100 when no more records are completed than tasks are
    assigned. *)
Lemma percentage_bounds (c t : Z) :
  0 ≤ c → 0 ≤ t →
  let p := if 0 <? t then rate c t else 0%Q in
  (0 <= p)%Q ∧ (c ≤ t → (p <= 100)%Q).
Proof.
  intros Hc Ht p. subst p. destruct (0 <? t) eqn:Hpos.
  - apply Z.ltb_lt in Hpos. split.
    + unfold rate. apply Qmult_le_0_compat; [|by compute].
      apply Qle_shift_div_l; [change 0%Q with (inject_Z 0); rewrite <- Zlt_Qlt; lia|].
      rewrite Qmult_0_l. change 0%Q with (inject_Z 0). rewrite <- Zle_Qle. lia.
    + intros Hle. apply rate_bounds; lia.
  - split; [by compute|]. intros _. by compute.
Qed.

(** C1 fails for [get_weekly_progress].  Both Monday tasks are ticked on
    Monday 2024-01-01 and one of them is deleted afterwards: two records of
    that date are completed, one task is assigned to Monday, and the row
    of the date shows 200 percent. *)
Lemma weekly_percentage_exceeds_100 :
  let s := delete_task 1 sample_db in
  s = run [AddTask "Monday" "a"; AddTask "Monday" "b"; AddTask "Tuesday" "c";
           UpdateProgress "2024-01-01" 1 true; UpdateProgress "2024-01-01" 2 true;
           UpdateProgress "2024-01-02" 3 false; DeleteTask 1]
  ∧ progress s ≠ [] ∧ bool_column s ∧ dates_parse strptime_Ymd s
  ∧ completed_on s "2024-01-01" = 2
  ∧ assigned_count s (CDate 2024 1 1) = 1
  ∧ get_weekly_progress s = Ok [("2024-01-01", 200%Q); ("2024-01-02", 0%Q)]
  ∧ ¬ (200 <= 100)%Q.
Proof.
  intros s. split; [reflexivity|]. split; [done|].
  split; [apply sample_db_bool_column|]. split; [apply sample_db_dates_parse|].
  split; [by vm_compute|]. split; [by vm_compute|]. split; [by vm_compute|].
  by compute.
Qed.

(** ** The ranking *)

Global Instance rank_order_trans : Transitive rank_order.
Proof.
  intros [k1 n1] [k2 n2] [k3 n3]. unfold rank_order. simpl.
  intros [H12|[H12 L12]] [H23|[H23 L23]]; try (left; lia).
  right. split; [lia|]. by etrans.
Qed.

Global Instance rank_order_total : Total rank_order.
Proof.
  intros [k1 n1] [k2 n2]. unfold rank_order. simpl.
  destruct (Z.lt_trichotomy n1 n2) as [Hlt|[->|Hgt]]; [right; left; lia| |left; left; lia].
  destruct (total String.le k1 k2); [right|left]; right; done.
Qed.

Lemma StronglySorted_take {A} (R : relation A) (n : nat) (l : list A) :
  StronglySorted R l → StronglySorted R (take n l).
Proof.
  intros Hl. revert n. induction Hl as [|x l Hl IH Hx]; intros [|n]; simpl;
    try constructor; [apply IH|].
  by apply Forall_take.
Qed.

Lemma join_row (ts : list task_row) :
  (t ← ts; [task t]) = task <$> ts.
Proof. induction ts as [|t ts IH]; [done|]. simpl. by f_equal. Qed.

Lemma incomplete_join_unfold s :
  incomplete_join s
  = p ← filter (λ p, completed p = 0) (progress s);
    task <$> filter (λ t, id t = task_id p) (tasks s).
Proof.
  unfold incomplete_join.
  induction (filter _ (progress s)) as [|p l IH]; [done|].
  by rewrite !bind_cons, join_row, IH.
Qed.

(** A record of a deleted task joins with nothing. *)
Lemma join_dangling s p :
  ¬ has_task s p → filter (λ t, id t = task_id p) (tasks s) = [].
Proof.
  unfold has_task. intros Hno.
  induction (tasks s) as [|t ts IH]; [done|].
  rewrite filter_cons. rewrite Exists_cons in Hno.
  rewrite decide_False by tauto. apply IH. tauto.
Qed.

Lemma incomplete_join_drop_dangling s :
  incomplete_join (drop_dangling s) = incomplete_join s.
Proof.
  rewrite !incomplete_join_unfold. unfold drop_dangling. simpl.
  induction (progress s) as [|p l IH]; [done|].
  rewrite !filter_cons.
  destruct (decide (has_task s p)) as [Hp|Hp].
  - rewrite filter_cons. case_decide; [|done]. by rewrite !bind_cons, IH.
  - case_decide; [|done]. by rewrite bind_cons, (join_dangling s p Hp).
Qed.

(** With [id] a key, a record joins with at most one task: it counts once
    for the description of its task and not at all for any other. *)
Lemma unique_match_count (ts : list task_row) (i : Z) (k : string) :
  NoDup (id <$> ts) →
  length (filter (λ x, x = k) (task <$> filter (λ t, id t = i) ts))
  = if decide (Exists (λ t, id t = i ∧ task t = k) ts) then 1%nat else 0%nat.
Proof.
  induction ts as [|t ts IH]; intros Hnd.
  - rewrite decide_False; [done|]. by intros ?%Exists_nil.
  - rewrite fmap_cons in Hnd. apply NoDup_cons in Hnd as [Hout Hnd].
    rewrite filter_cons. destruct (decide (id t = i)) as [Hi|Hi].
    + assert (filter (λ t, id t = i) ts = []) as ->.
      { clear IH Hnd. induction ts as [|t' ts IH]; [done|].
        rewrite fmap_cons in Hout. apply not_elem_of_cons in Hout as [Hne Hout].
        rewrite filter_cons, decide_False by congruence. by apply IH. }
      assert (¬ Exists (λ t, id t = i ∧ task t = k) ts) as Hno.
      { intros (t' & Ht' & Hi' & _)%Exists_exists. apply Hout.
        apply list_elem_of_fmap. exists t'. split; [congruence|done]. }
      rewrite fmap_cons, fmap_nil, filter_cons, filter_nil.
      destruct (decide (task t = k)) as [Hk|Hk].
      * rewrite decide_True; [done|]. apply Exists_cons. by left.
      * rewrite decide_False; [done|]. rewrite Exists_cons. tauto.
    + rewrite IH by done.
      destruct (decide (Exists (λ t, id t = i ∧ task t = k) ts)) as [He|He].
      * rewrite decide_True; [done|]. apply Exists_cons. by right.
      * rewrite decide_False; [done|]. rewrite Exists_cons. tauto.
Qed.

Lemma join_count s k :
  unique_ids s →
  length (filter (λ x, x = k) (incomplete_join s)) = length (incomplete_records s k).
Proof.
  intros Hu. rewrite incomplete_join_unfold. unfold incomplete_records.
  induction (progress s) as [|p l IH]; [done|].
  rewrite !filter_cons. destruct (decide (completed p = 0)) as [Hc|Hc].
  - rewrite bind_cons, filter_app, length_app, IH, unique_match_count by done.
    destruct (decide (Exists _ (tasks s))) as [He|He].
    + by rewrite decide_True.
    + rewrite decide_False by tauto. done.
  - rewrite decide_False by tauto. done.
Qed.

Lemma elem_of_incomplete_counts s k n :
  (k, n) ∈ incomplete_counts s →
  k ∈ incomplete_join s
  ∧ n = Z.of_nat (length (filter (λ x, x = k) (incomplete_join s))).
Proof.
  unfold incomplete_counts. cbv zeta.
  intros (k' & [= -> ->] & Hk)%list_elem_of_fmap.
  by rewrite merge_sort_Permutation, elem_of_remove_dups in Hk.
Qed.

(** C7. The ranking has at most 5 rows, in non-increasing order of count.
    The count of a description is the number of records marked not
    completed whose task exists and has that description; records whose
    task has been deleted do not change the ranking. *)
Theorem incomplete_ranking (s : db) :
  unique_ids s →
  (length (incomplete_tasks s) ≤ 5)%nat
  ∧ StronglySorted (λ x y, y.2 ≤ x.2) (incomplete_tasks s)
  ∧ (∀ k n, (k, n) ∈ incomplete_tasks s →
       n = Z.of_nat (length (incomplete_records s k)) ∧ 1 ≤ n)
  ∧ incomplete_tasks (drop_dangling s) = incomplete_tasks s.
Proof.
  intros Hu. unfold incomplete_tasks. split; [rewrite length_take; lia|].
  split; [|split].
  - apply StronglySorted_take.
    eapply StronglySorted_impl; [|apply (StronglySorted_merge_sort rank_order)].
    intros x y. unfold rank_order. lia.
  - intros k n Hin%subseteq_take. rewrite merge_sort_Permutation in Hin.
    apply elem_of_incomplete_counts in Hin as [Hk ->].
    split; [by rewrite join_count|].
    assert (k ∈ filter (λ x, x = k) (incomplete_join s)) as Hin
      by (by apply list_elem_of_filter).
    destruct (filter _ (incomplete_join s)); [by apply elem_of_nil in Hin|].
    rewrite length_cons. lia.
  - unfold incomplete_counts. by rewrite incomplete_join_drop_dangling.
Qed.

Lemma incomplete_ranking_witness :
  (length (incomplete_tasks sample_db) ≤ 5)%nat
  ∧ incomplete_tasks (drop_dangling sample_db) = incomplete_tasks sample_db.
Proof.
  assert (unique_ids sample_db) as Hu.
  { unfold unique_ids. apply (bool_decide_unpack _). by vm_compute. }
  destruct (incomplete_ranking sample_db Hu) as (Hlen & _ & _ & Hdrop).
  by split.
Defined.

(** The record of the deleted task 3 is left out of the ranking. *)
Example incomplete_ranking_deleted :
  let s := update_progress "2024-01-08" 1 false sample_db in
  incomplete_tasks s = [("c", 1); ("a", 1)]
  ∧ incomplete_tasks (delete_task 3 s) = [("a", 1)].
Proof. by vm_compute. Qed.

(** Six tasks left open, one of them twice: the row of the highest count
    comes first, the rows of equal count follow by description descending,
    and the cut at 5 drops the least description. *)
Example incomplete_ranking_ties :
  let s := run [AddTask "Monday" "t"; AddTask "Monday" "u"; AddTask "Monday" "w";
                AddTask "Monday" "x"; AddTask "Monday" "y"; AddTask "Monday" "z";
                UpdateProgress "2024-01-01" 1 false; UpdateProgress "2024-01-01" 2 false;
                UpdateProgress "2024-01-01" 3 false; UpdateProgress "2024-01-01" 4 false;
                UpdateProgress "2024-01-01" 5 false; UpdateProgress "2024-01-01" 6 false;
                UpdateProgress "2024-01-08" 2 false] in
  incomplete_tasks s = [("u", 2); ("z", 1); ("y", 1); ("x", 1); ("w", 1)].
Proof. by vm_compute. Qed.

(** ** Invariants of the store *)

Lemma Forall_filter_keep {A} (P Q : A → Prop) `{∀ x, Decision (Q x)} (l : list A) :
  Forall P l → Forall P (filter Q l).
Proof.
  rewrite !Forall_forall. intros Hl x [_ Hx]%list_elem_of_filter. auto.
Qed.

Lemma store_inv_empty : store_inv empty_db.
Proof. repeat split; constructor. Qed.

Lemma store_inv_step s o : well_dated o → store_inv s → store_inv (run_op s o).
Proof.
  intros Hw (Hb & Hd & Hu & Hs).
  unfold store_inv, bool_column, dates_parse, unique_ids in *.
  destruct o as [d t|i|d t b|d|]; simpl.
  - repeat split; [done|done| |].
    + rewrite fmap_app. apply NoDup_app. split; [done|]. split; [|apply NoDup_singleton].
      intros i Hi Hi'. apply list_elem_of_fmap in Hi as (r & -> & Hr).
      apply list_elem_of_singleton in Hi'. simpl in Hi'.
      rewrite Forall_forall in Hs. specialize (Hs r Hr). lia.
    + apply Forall_app. split; [|by repeat constructor; simpl; lia].
      eapply Forall_impl; [exact Hs|]. simpl. lia.
  - repeat split; [done|done| |].
    + clear Hs. induction (tasks s) as [|t ts IH]; [done|].
      rewrite fmap_cons in Hu. apply NoDup_cons in Hu as [Hout Hu].
      rewrite filter_cons. case_decide; [|by apply IH].
      rewrite fmap_cons. apply NoDup_cons. split; [|by apply IH].
      intros (t' & Ht' & [_ Hin]%list_elem_of_filter)%list_elem_of_fmap.
      apply Hout. apply list_elem_of_fmap. eauto.
    + by apply Forall_filter_keep.
  - repeat split; [| |done|done].
    + apply Forall_app. split; [by apply Forall_filter_keep|].
      apply Forall_singleton. simpl. destruct b; auto.
    + apply Forall_app. split; [by apply Forall_filter_keep|].
      by apply Forall_singleton.
  - repeat split; [| |done|done]; by apply Forall_filter_keep.
  - repeat split; [| |done|done]; constructor.
Qed.

(** Every store that the pages can reach is well formed. *)
Lemma store_inv_run ops : Forall well_dated ops → store_inv (run ops).
Proof.
  unfold run. induction ops as [|o ops IH] using rev_ind; intros Hops.
  - apply store_inv_empty.
  - apply Forall_app in Hops as [Hops Ho]. rewrite Forall_singleton in Ho.
    rewrite foldl_app. simpl. apply store_inv_step; [done|by apply IH].
Qed.

(** ** Dates written by the pages *)

Lemma digit_digit_char (n : Z) : 0 ≤ n ≤ 9 → digit (digit_char n) = Some n.
Proof.
  intros Hn.
  assert (n = 0 ∨ n = 1 ∨ n = 2 ∨ n = 3 ∨ n = 4 ∨ n = 5 ∨ n = 6 ∨ n = 7 ∨ n = 8 ∨ n = 9)
    as Hcases by lia.
  repeat (destruct Hcases as [->|Hcases]; [reflexivity|]). by subst.
Qed.

Lemma re_Y_digits {B} (k : Z → list ascii → option B) (y : Z) (rest : list ascii) :
  1000 ≤ y ≤ 9999 → re_Y k (digits_Y y ++ rest) = k y rest.
Proof.
  intros Hy. unfold digits_Y.
  rewrite !(proj2 (Z.ltb_ge _ _)) by lia. simpl. unfold re_Y.
  rewrite !digit_digit_char by (Z.div_mod_to_equations; lia).
  f_equal. Z.div_mod_to_equations. lia.
Qed.

Lemma re_m_digits {B} (k : Z → list ascii → option B) (m : Z) rest (v : B) :
  1 ≤ m ≤ 12 → k m rest = Some v → re_m k (digits2 m ++ rest) = Some v.
Proof.
  intros Hm Hk.
  assert (m = 1 ∨ m = 2 ∨ m = 3 ∨ m = 4 ∨ m = 5 ∨ m = 6 ∨ m = 7 ∨ m = 8 ∨ m = 9
          ∨ m = 10 ∨ m = 11 ∨ m = 12) as Hcases by lia.
  repeat (destruct Hcases as [->|Hcases]; [cbv; rewrite Hk; reflexivity|]).
  subst. cbv. rewrite Hk. reflexivity.
Qed.

Lemma re_d_digits {B} (k : Z → list ascii → option B) (d : Z) rest (v : B) :
  1 ≤ d ≤ 31 → k d rest = Some v → re_d k (digits2 d ++ rest) = Some v.
Proof.
  intros Hd Hk.
  assert (d = 1 ∨ d = 2 ∨ d = 3 ∨ d = 4 ∨ d = 5 ∨ d = 6 ∨ d = 7 ∨ d = 8 ∨ d = 9
          ∨ d = 10 ∨ d = 11 ∨ d = 12 ∨ d = 13 ∨ d = 14 ∨ d = 15 ∨ d = 16 ∨ d = 17
          ∨ d = 18 ∨ d = 19 ∨ d = 20 ∨ d = 21 ∨ d = 22 ∨ d = 23 ∨ d = 24 ∨ d = 25
          ∨ d = 26 ∨ d = 27 ∨ d = 28 ∨ d = 29 ∨ d = 30 ∨ d = 31) as Hcases by lia.
  repeat (destruct Hcases as [->|Hcases]; [cbv; rewrite Hk; reflexivity|]).
  subst. cbv. rewrite Hk. reflexivity.
Qed.

Lemma days_in_month_le (y m : Z) : days_in_month y m ≤ 31.
Proof.
  unfold days_in_month. destruct (_ && _); [lia|].
  destruct (Z.to_nat m) as [|[|[|[|[|[|[|[|[|[|[|[|[|n]]]]]]]]]]]]]; simpl; try lia.
  destruct n; simpl; lia.
Qed.

Lemma strptime_strftime_valid (d : cdate) :
  valid_date d = true → 1000 ≤ year d →
  strptime_Ymd (strftime_Ymd d) = Ok d.
Proof.
  intros Hv Hy. unfold valid_date in Hv.
  repeat (apply andb_prop in Hv as [Hv ?]).
  repeat match goal with H : (_ <=? _) = true |- _ => apply Z.leb_le in H end.
  pose proof (days_in_month_le (year d) (month d)) as Hdim.
  unfold strptime_Ymd, strftime_Ymd.
  rewrite list_ascii_of_string_of_list_ascii. unfold match_Ymd.
  rewrite re_Y_digits by lia. unfold lit at 1. rewrite decide_True by done.
  erewrite re_m_digits; [| lia |].
  2:{ unfold lit. rewrite decide_True by done.
      rewrite <- (app_nil_r (digits2 (mday d))).
      apply re_d_digits; [lia|reflexivity]. }
  unfold valid_date. simpl.
  repeat match goal with H : _ ≤ _ |- _ => apply Z.leb_le in H; rewrite H; clear H end.
  simpl. by destruct d.
Qed.

(** X1. A date that the pages format with [strftime('%Y-%m-%d')] is read
    back by [strptime] as the same date, for every valid date from the year
    1000 on; two such dates never share a date string. *)
Theorem strftime_round_trip (d1 d2 : cdate) :
  valid_date d1 = true → 1000 ≤ year d1 →
  valid_date d2 = true → 1000 ≤ year d2 →
  strptime_Ymd (strftime_Ymd d1) = Ok d1
  ∧ (strftime_Ymd d1 = strftime_Ymd d2 → d1 = d2).
Proof.
  intros Hv1 Hy1 Hv2 Hy2. split; [by apply strptime_strftime_valid|].
  intros Heq.
  pose proof (strptime_strftime_valid d1 Hv1 Hy1) as H1.
  pose proof (strptime_strftime_valid d2 Hv2 Hy2) as H2.
  rewrite Heq, H2 in H1. by injection H1.
Qed.

Lemma strftime_round_trip_witness :
  strptime_Ymd (strftime_Ymd (CDate 2024 2 29)) = Ok (CDate 2024 2 29).
Proof.
  apply (strftime_round_trip (CDate 2024 2 29) (CDate 2024 3 1));
    (reflexivity || (simpl; lia)).
Defined.

(** ** The primary key of [progress] *)

Lemma NoDup_fmap_filter {A B} (f : A → B) (P : A → Prop) `{∀ x, Decision (P x)}
    (l : list A) :
  NoDup (f <$> l) → NoDup (f <$> filter P l).
Proof.
  induction l as [|x l IH]; [done|].
  rewrite fmap_cons. intros [Hout Hnd]%NoDup_cons. rewrite filter_cons.
  case_decide; [|by apply IH].
  rewrite fmap_cons. apply NoDup_cons. split; [|by apply IH].
  intros (y & Hy & [_ Hin]%list_elem_of_filter)%list_elem_of_fmap.
  apply Hout. apply list_elem_of_fmap. eauto.
Qed.

Lemma unique_keys_step s o : unique_keys s → unique_keys (run_op s o).
Proof.
  unfold unique_keys. intros Hu. destruct o as [d t|i|d t b|d|]; simpl; try done.
  - rewrite fmap_app. apply NoDup_app. split; [by apply NoDup_fmap_filter|].
    split; [|apply NoDup_singleton].
    intros k (r & -> & [Hr _]%list_elem_of_filter)%list_elem_of_fmap.
    intros Hk%list_elem_of_singleton. simpl in Hk. apply Hr.
    by injection Hk.
  - by apply NoDup_fmap_filter.
  - constructor.
Qed.

Lemma unique_keys_run ops : unique_keys (run ops).
Proof.
  unfold run. induction ops as [|o ops IH] using rev_ind; [constructor|].
  rewrite foldl_app. simpl. by apply unique_keys_step.
Qed.

(** X2. Whatever sequence of writes the pages perform, starting from the
    empty store and passing [update_progress] dates that [strptime]
    accepts, the store keeps its invariants: the [completed] cells are 0 or
    1, the dates of the log parse, task ids are unique and never above the
    [AUTOINCREMENT] counter, and the log holds one row per (date, task id). *)
Theorem run_keeps_invariants (ops : list op) :
  Forall well_dated ops →
  bool_column (run ops) ∧ dates_parse strptime_Ymd (run ops)
  ∧ unique_ids (run ops) ∧ Forall (λ t, id t ≤ seq (run ops)) (tasks (run ops))
  ∧ unique_keys (run ops).
Proof.
  intros Hops. destruct (store_inv_run ops Hops) as (Hb & Hd & Hu & Hs).
  repeat split; try done. apply unique_keys_run.
Qed.

Lemma run_keeps_invariants_witness :
  let ops := [AddTask "Monday" "a"; UpdateProgress "2024-01-01" 1 true;
              UpdateProgress "2024-01-01" 1 false; DeleteTask 1;
              AddTask "Monday" "b"; ResetProgress "2024-01-02"] in
  bool_column (run ops) ∧ dates_parse strptime_Ymd (run ops)
  ∧ unique_ids (run ops) ∧ Forall (λ t, id t ≤ seq (run ops)) (tasks (run ops))
  ∧ unique_keys (run ops).
Proof.
  intros ops. apply run_keeps_invariants.
  repeat constructor; by eexists.
Defined.

(** ** Reading the log of a date *)

Lemma dict_of_lookup_None (rows : list (Z * Z)) (k : Z) :
  dict_of rows !! k = None ↔ k ∉ rows.*1.
Proof.
  induction rows as [|[a v] rows IH] using rev_ind.
  - split; [intros _ Hin; by apply elem_of_nil in Hin|done].
  - rewrite dict_of_snoc, fmap_app, elem_of_app. simpl.
    rewrite list_elem_of_singleton.
    destruct (decide (a = k)) as [->|Hne].
    + rewrite lookup_insert_eq. split; [done|]. intros Hno. exfalso. apply Hno. by right.
    + rewrite lookup_insert_ne by done. rewrite IH. split; [|tauto].
      intros Hout [Hin|Heq]; [done|]. by apply Hne.
Qed.

Lemma dict_of_lookup_Some (rows : list (Z * Z)) (k : Z) (b : bool) :
  NoDup rows.*1 →
  dict_of rows !! k = Some b ↔ ∃ c, (k, c) ∈ rows ∧ bool_of_int c = b.
Proof.
  induction rows as [|[a v] rows IH] using rev_ind; intros Hnd.
  - split; [done|]. intros (c & Hin & _). by apply elem_of_nil in Hin.
  - rewrite fmap_app in Hnd. apply NoDup_app in Hnd as (Hnd & Hdisj & _).
    rewrite dict_of_snoc. destruct (decide (a = k)) as [->|Hne].
    + rewrite lookup_insert_eq. split.
      * intros [= <-]. exists v. split; [|done]. apply elem_of_app. right. left.
      * intros (c & [Hin|Hin%list_elem_of_singleton]%elem_of_app & <-).
        -- exfalso. apply (Hdisj k); [|left].
           apply list_elem_of_fmap. by exists (k, c).
        -- by injection Hin as ->.
    + rewrite lookup_insert_ne by done. rewrite (IH Hnd). split.
      * intros (c & Hin & Hb). exists c. split; [|done]. apply elem_of_app. by left.
      * intros (c & [Hin|Hin%list_elem_of_singleton]%elem_of_app & Hb).
        -- by exists c.
        -- injection Hin as -> _. done.
Qed.

Lemma date_rows_elem d s k c :
  (k, c) ∈ (λ r, (task_id r, completed r)) <$> filter (λ r, date r = d) (progress s)
  ↔ ProgressRow d k c ∈ progress s.
Proof.
  rewrite list_elem_of_fmap. split.
  - intros ([d' k' c'] & [= -> ->] & [Hd Hin]%list_elem_of_filter).
    simpl in Hd. by subst.
  - intros Hin. exists (ProgressRow d k c). split; [done|].
    by apply list_elem_of_filter.
Qed.

Lemma NoDup_task_ids (l : list progress_row) (d : string) :
  Forall (λ r, date r = d) l →
  NoDup ((λ r, (date r, task_id r)) <$> l) → NoDup (task_id <$> l).
Proof.
  induction 1 as [|r l Hr Hl IH]; [constructor|].
  rewrite !fmap_cons. intros [Hout Hnd]%NoDup_cons.
  apply NoDup_cons. split; [|by apply IH].
  intros (r' & Hk & Hin)%list_elem_of_fmap. apply Hout.
  apply list_elem_of_fmap. exists r'. split; [|done].
  rewrite Forall_forall in Hl. by rewrite Hr, (Hl r' Hin), Hk.
Qed.

Lemma date_rows_NoDup d s :
  unique_keys s →
  NoDup ((λ r, (task_id r, completed r)) <$> filter (λ r, date r = d) (progress s)).*1.
Proof.
  unfold unique_keys. intros Hu.
  apply (NoDup_fmap_filter _ (λ r, date r = d)) in Hu.
  rewrite <- list_fmap_compose.
  apply (NoDup_task_ids _ d); [|done].
  apply Forall_forall. by intros r [? _]%list_elem_of_filter.
Qed.

(** X3. [get_progress d] has an entry for a task id exactly when the log
    holds a row for that date and task; the entry is [bool] of the stored
    cell.  A task without a row has no entry at all (it is not mapped to
    [False]). *)
Theorem get_progress_lookup (d : string) (t : Z) (s : db) :
  unique_keys s →
  (∀ b, get_progress d s !! t = Some b
        ↔ ∃ c, ProgressRow d t c ∈ progress s ∧ bool_of_int c = b)
  ∧ (get_progress d s !! t = None ↔ ∀ c, ProgressRow d t c ∉ progress s).
Proof.
  intros Hu. unfold get_progress. split.
  - intros b. rewrite dict_of_lookup_Some by by apply date_rows_NoDup.
    split; intros (c & Hin & Hb); exists c; (split; [|done]); by apply date_rows_elem.
  - rewrite dict_of_lookup_None. split.
    + intros Hout c Hin. apply Hout. apply list_elem_of_fmap.
      exists (t, c). split; [done|]. by apply date_rows_elem.
    + intros Hno ([k c] & -> & Hin)%list_elem_of_fmap.
      apply (Hno c). by apply date_rows_elem.
Qed.

Lemma get_progress_lookup_witness :
  get_progress "2024-01-02" sample_db !! 3 = Some false
  ∧ get_progress "2024-01-02" sample_db !! 1 = None.
Proof.
  assert (unique_keys sample_db) as Hu.
  { unfold unique_keys. apply (bool_decide_unpack _). by vm_compute. }
  destruct (get_progress_lookup "2024-01-02" 3 sample_db Hu) as [H3 _].
  destruct (get_progress_lookup "2024-01-02" 1 sample_db Hu) as [_ H1].
  split.
  - apply H3. exists 0. split; [|done]. apply list_elem_of_In. vm_compute. tauto.
  - apply H1. intros c Hin%list_elem_of_In. vm_compute in Hin.
    destruct Hin as [[=]|[[=]|[[=]|[]]]].
Defined.

(** ** Resets *)

Lemma filter_date_reset d d' (l : list progress_row) :
  filter (λ r, date r = d') (filter (λ r, date r ≠ d) l)
  = if decide (d' = d) then [] else filter (λ r, date r = d') l.
Proof.
  induction l as [|r l IH]; [by case_decide|].
  rewrite !filter_cons. destruct (decide (date r ≠ d)) as [Hne|Heq].
  - rewrite filter_cons, IH.
    destruct (decide (d' = d)) as [->|Hd]; [by rewrite decide_False|].
    by case_decide.
  - apply dec_stable in Heq. rewrite IH.
    destruct (decide (d' = d)) as [->|Hd]; [done|].
    rewrite decide_False; [done|congruence].
Qed.

(** X4. [reset_progress d] removes every record of the date [d]: the date
    has no entries afterwards (its tasks are unrecorded, not marked
    incomplete), while the entries of every other date and the task table
    are untouched. *)
Theorem reset_progress_spec (d : string) (s : db) :
  get_progress d (reset_progress d s) = ∅
  ∧ (∀ d', d' ≠ d → get_progress d' (reset_progress d s) = get_progress d' s)
  ∧ (∀ r, r ∈ progress (reset_progress d s) ↔ r ∈ progress s ∧ date r ≠ d)
  ∧ tasks (reset_progress d s) = tasks s.
Proof.
  unfold get_progress. simpl. split; [|split; [|split; [|done]]].
  - by rewrite filter_date_reset, decide_True.
  - intros d' Hd. by rewrite filter_date_reset, decide_False.
  - intros r. rewrite list_elem_of_filter. tauto.
Qed.

(** ** Writes *)

Lemma filter_key_idem d t (l : list progress_row) (x : progress_row) :
  date x = d → task_id x = t →
  filter (λ r, ¬ (date r = d ∧ task_id r = t))
    (filter (λ r, ¬ (date r = d ∧ task_id r = t)) l ++ [x])
  = filter (λ r, ¬ (date r = d ∧ task_id r = t)) l.
Proof.
  intros Hd Ht. rewrite filter_app, filter_cons, filter_nil.
  rewrite decide_False by tauto. rewrite app_nil_r.
  induction l as [|r l IH]; [done|].
  rewrite filter_cons. case_decide; [|done].
  rewrite filter_cons, decide_True by done. by f_equal.
Qed.

(** X6. The last write to a key wins and leaves no trace of the earlier
    one: writing [(d, t)] twice gives the very store that the second write
    alone gives, and a reset of the date undoes the write altogether. *)
Theorem update_progress_overwrites (d : string) (t : Z) (b b' : bool) (s : db) :
  update_progress d t b (update_progress d t b' s) = update_progress d t b s
  ∧ reset_progress d (update_progress d t b s) = reset_progress d s.
Proof.
  split.
  - unfold update_progress. simpl. by rewrite filter_key_idem.
  - unfold reset_progress, update_progress. simpl. f_equal.
    rewrite filter_app, filter_cons, filter_nil.
    rewrite decide_False by (simpl; tauto). rewrite app_nil_r.
    induction (progress s) as [|r l IH]; [done|].
    rewrite !filter_cons.
    destruct (decide (date r ≠ d)) as [Hne|Heq].
    + rewrite decide_True by tauto. rewrite filter_cons, decide_True by done.
      by f_equal.
    + case_decide; [|done]. by rewrite filter_cons, decide_False.
Qed.

(** ** Tasks *)

(** X7. [add_task] appends the task to the list of its day under the id
    that follows the [AUTOINCREMENT] counter.  The id is above every id in
    the table, and as [delete_task] leaves the counter alone, the id of a
    deleted task is never handed out again; other days and the log are
    untouched. *)
Theorem add_task_spec (d t : string) (s : db) :
  Forall (λ r, id r ≤ seq s) (tasks s) →
  get_tasks d (add_task d t s) = get_tasks d s ++ [(seq s + 1, t)]
  ∧ (∀ d', d' ≠ d → get_tasks d' (add_task d t s) = get_tasks d' s)
  ∧ (∀ d' i x, (i, x) ∈ get_tasks d' s → i < seq s + 1)
  ∧ (∀ i, seq (delete_task i s) = seq s
          ∧ Forall (λ r, id r ≤ seq (delete_task i s)) (tasks (delete_task i s)))
  ∧ progress (add_task d t s) = progress s.
Proof.
  intros Hs. unfold get_tasks. simpl. split; [|split; [|split; [|split; [|done]]]].
  - rewrite filter_app, filter_cons, filter_nil, decide_True by done.
    by rewrite fmap_app.
  - intros d' Hd. rewrite filter_app, filter_cons, filter_nil.
    rewrite decide_False by (simpl; congruence). by rewrite app_nil_r.
  - intros d' i x (r & [= -> ->] & [_ Hr]%list_elem_of_filter)%list_elem_of_fmap.
    rewrite Forall_forall in Hs. specialize (Hs r Hr). lia.
  - intros i. split; [done|]. by apply Forall_filter_keep.
Qed.

Lemma add_task_spec_witness :
  get_tasks "Monday" (add_task "Monday" "d" (delete_task 2 sample_db))
  = [(1, "a"); (4, "d")].
Proof.
  assert (Forall (λ r, id r ≤ seq (delete_task 2 sample_db))
            (tasks (delete_task 2 sample_db))) as Hs.
  { apply (bool_decide_unpack _). by vm_compute. }
  destruct (add_task_spec "Monday" "d" (delete_task 2 sample_db) Hs) as (H1 & _).
  exact H1.
Defined.

Lemma filter_id_deleted (i : Z) (ts : list task_row) :
  filter (λ t, id t = i) (filter (λ t, id t ≠ i) ts) = [].
Proof.
  induction ts as [|t ts IH]; [done|].
  rewrite filter_cons. case_decide; [|done].
  by rewrite filter_cons, decide_False.
Qed.

Lemma incomplete_join_delete_task i s :
  incomplete_join (delete_task i s) = incomplete_join (purge_task i s).
Proof.
  rewrite !incomplete_join_unfold. unfold delete_task, purge_task. cbn [progress tasks].
  induction (progress s) as [|p l IH]; [done|].
  rewrite !filter_cons.
  destruct (decide (completed p = 0)) as [Hc|Hc];
    destruct (decide (task_id p ≠ i)) as [Hi|Hi].
  - rewrite filter_cons, decide_True by done. by rewrite !bind_cons, IH.
  - apply dec_stable in Hi. by rewrite bind_cons, Hi, filter_id_deleted, IH.
  - by rewrite filter_cons, decide_False.
  - done.
Qed.

Lemma incomplete_records_delete_task i s k :
  incomplete_records (delete_task i s) k
  = filter (λ p, task_id p ≠ i) (incomplete_records s k).
Proof.
  unfold incomplete_records, delete_task. cbn [progress tasks].
  rewrite list_filter_filter. apply list_filter_iff. intros p.
  rewrite !Exists_exists. split.
  - intros (Hc & t & [Hne Ht]%list_elem_of_filter & Hid & Hk).
    split; [congruence|]. split; [done|]. by exists t.
  - intros (Hne & Hc & t & Ht & Hid & Hk). split; [done|].
    exists t. split; [|done]. apply list_elem_of_filter. split; [congruence|done].
Qed.

(** X8. [delete_task] removes the task from the list of its day and
    nothing else: the other tasks keep their order and the log keeps the
    records of the deleted task, so that [calculate_statistics] is
    unchanged.  The ranking of [show_insights] no longer counts them: it is
    the ranking of the store without the task and without its records, and
    the count of each of its rows is the number of incomplete records of
    the other task ids under that description. *)
Theorem delete_task_spec (to_datetime : string → result cdate) (i : Z) (s : db) :
  (∀ d, get_tasks d (delete_task i s) = filter (λ row, row.1 ≠ i) (get_tasks d s))
  ∧ progress (delete_task i s) = progress s
  ∧ (∀ p, task_id p = i → ¬ has_task (delete_task i s) p)
  ∧ calculate_statistics to_datetime (delete_task i s)
    = calculate_statistics to_datetime s
  ∧ incomplete_tasks (delete_task i s) = incomplete_tasks (purge_task i s)
  ∧ (unique_ids s →
       ∀ k n, (k, n) ∈ incomplete_tasks (delete_task i s) →
         n = Z.of_nat (length (filter (λ p, task_id p ≠ i) (incomplete_records s k)))).
Proof.
  split; [|split; [done|split; [|split; [done|split]]]].
  - intros d. unfold get_tasks. simpl.
    induction (tasks s) as [|r l IH]; [done|].
    rewrite !filter_cons.
    destruct (decide (id r ≠ i)) as [Hne|Heq]; destruct (decide (day r = d)) as [Hd|Hd].
    + rewrite filter_cons, decide_True by done. rewrite !fmap_cons.
      rewrite filter_cons, decide_True by done. by f_equal.
    + by rewrite filter_cons, decide_False.
    + rewrite fmap_cons, filter_cons, decide_False by done. done.
    + done.
  - intros p Hp. unfold has_task. simpl.
    intros (r & [Hr _]%list_elem_of_filter & Hid)%Exists_exists. congruence.
  - unfold incomplete_tasks, incomplete_counts.
    by rewrite incomplete_join_delete_task.
  - intros Hu k n Hin. unfold incomplete_tasks in Hin.
    apply subseteq_take in Hin. rewrite merge_sort_Permutation in Hin.
    apply elem_of_incomplete_counts in Hin as [_ ->].
    rewrite join_count, incomplete_records_delete_task; [done|].
    unfold unique_ids, delete_task. cbn [tasks]. by apply NoDup_fmap_filter.
Qed.

Lemma delete_task_spec_witness :
  let s := update_progress "2024-01-08" 1 false sample_db in
  incomplete_tasks (delete_task 3 s) = incomplete_tasks (purge_task 3 s)
  ∧ 1 = Z.of_nat (length (filter (λ p, task_id p ≠ 3) (incomplete_records s "a"))).
Proof.
  intros s.
  destruct (delete_task_spec strptime_Ymd 3 s) as (_ & _ & _ & _ & Hpurge & H).
  split; [exact Hpurge|]. apply H.
  - unfold unique_ids. apply (bool_decide_unpack _). by vm_compute.
  - apply list_elem_of_In. vm_compute. tauto.
Defined.

(** ** The order of the rows of [get_weekly_progress] *)

Global Instance date_order_trans : Transitive (by_key String.le (@fst string Q)).
Proof. intros x y z. unfold by_key. apply transitivity. Qed.

Global Instance date_order_total : Total (by_key String.le (@fst string Q)).
Proof. intros x y. unfold by_key. apply total, _. Qed.

(** X9. The rows of [get_weekly_progress] come in strictly ascending order
    of their date strings; on an empty log there is no row. *)
Theorem get_weekly_progress_sorted (s : db) :
  dates_parse strptime_Ymd s →
  ∃ rows, get_weekly_progress s = Ok rows
    ∧ StronglySorted (λ a b, String.le a b ∧ a ≠ b) (fst <$> rows)
    ∧ (progress s = [] → rows = []).
Proof.
  intros Hp. destruct (get_weekly_progress_rows s Hp) as (data & Hrows & Hfst & _).
  eexists. split; [exact Hrows|]. split.
  - apply StronglySorted_strict.
    + apply (StronglySorted_fmap fst (by_key String.le fst)); [done|].
      apply StronglySorted_merge_sort; apply _.
    + rewrite merge_sort_Permutation, Hfst, merge_sort_Permutation.
      apply NoDup_remove_dups.
  - intros Hnil. rewrite Hnil in Hfst. destruct data; [done|discriminate Hfst].
Qed.

Lemma get_weekly_progress_sorted_witness :
  ∃ rows, get_weekly_progress sample_db = Ok rows
    ∧ StronglySorted (λ a b, String.le a b ∧ a ≠ b) (fst <$> rows).
Proof.
  destruct (get_weekly_progress_sorted sample_db sample_db_dates_parse)
    as (rows & Hrows & Hsorted & _).
  by exists rows.
Defined.

(** ** The message of the insights page *)

Lemma rate_eq_100 (c t : Z) : 1 ≤ t → (rate c t == 100)%Q ↔ c = t.
Proof.
  intros Ht. destruct t as [|p|p]; try lia.
  unfold rate, Qeq, Qdiv, Qmult, Qinv, inject_Z. simpl. lia.
Qed.

Lemma rate_ge (n c t : Z) : 1 ≤ t → (inject_Z n <= rate c t)%Q ↔ n * t ≤ 100 * c.
Proof.
  intros Ht. destruct t as [|p|p]; try lia.
  unfold rate, Qle, Qdiv, Qmult, Qinv, inject_Z. simpl. lia.
Qed.

(** X10. The message under the overall statistics depends on the counts
    alone: it praises full completion exactly when every record is
    completed, and otherwise steps down at four fifths and at one half of
    the records. *)
Theorem motivational_message_tiers (c t : Z) :
  1 ≤ t → 0 ≤ c ≤ t →
  (c = t → motivational_message (rate c t)
     = "Excellent work! You've completed all your tasks. Keep up the great discipline!")
  ∧ (c < t → 4 * t ≤ 5 * c → motivational_message (rate c t)
       = "Great job! You're on track. Aim for 100% tomorrow!")
  ∧ (5 * c < 4 * t → t ≤ 2 * c → motivational_message (rate c t)
       = "Good effort! Try to push a bit more for better results.")
  ∧ (2 * c < t → motivational_message (rate c t)
       = "Don't give up! Identify obstacles and strive to improve your completion rate.").
Proof.
  intros Ht Hc. unfold motivational_message.
  pose proof (rate_eq_100 c t Ht) as H100.
  pose proof (rate_ge 80 c t Ht) as H80. pose proof (rate_ge 50 c t Ht) as H50.
  change (inject_Z 80) with 80%Q in H80. change (inject_Z 50) with 50%Q in H50.
  rewrite <- Qeq_bool_iff in H100. rewrite <- Qle_bool_iff in H80, H50.
  destruct (Qeq_bool (rate c t) 100) eqn:E100;
    destruct (Qle_bool 80 (rate c t)) eqn:E80;
    destruct (Qle_bool 50 (rate c t)) eqn:E50;
    repeat split; intros; try done;
    repeat match goal with
           | H : true = true ↔ _ |- _ => destruct H as [H _]; specialize (H eq_refl)
           | H : false = true ↔ _ |- _ => destruct H as [_ H]
           end; exfalso; try lia;
    repeat match goal with
           | H : _ → false = true |- _ =>
               first [ (assert (false = true) by (apply H; lia); done) | clear H ]
           end.
Qed.

Lemma motivational_message_tiers_witness :
  motivational_message (rate 2 3)
  = "Good effort! Try to push a bit more for better results.".
Proof.
  destruct (motivational_message_tiers 2 3) as (_ & _ & H & _); [lia|lia|].
  apply H; lia.
Defined.

(** ** The daywise and heatmap views against the totals *)

Lemma day_name_in_day_names (d : cdate) : day_name d ∈ day_names.
Proof.
  unfold day_name, weekday.
  pose proof (Z.mod_pos_bound (toordinal d + 6) 7 ltac:(lia)) as Hb.
  generalize dependent ((toordinal d + 6) mod 7). intros n Hn.
  assert (n = 0 ∨ n = 1 ∨ n = 2 ∨ n = 3 ∨ n = 4 ∨ n = 5 ∨ n = 6) as Hcases by lia.
  apply list_elem_of_In.
  repeat (destruct Hcases as [->|Hcases]; [simpl; tauto|]). subst. simpl. tauto.
Qed.

Lemma day_names_NoDup : NoDup day_names.
Proof. apply (bool_decide_unpack _). by vm_compute. Qed.

(** Cell by cell, a reindexed frame holds the aggregate of the group of
    each label; for a label without group that aggregate is 0, shown as
    NaN. *)
Lemma reindex_cells (key : frame_row → string) (df : list frame_row)
    (g : agg_row string → Z) (h : nullable_row → option Z) labels :
  (∀ l c t q, h (NRow l (Some c) (Some t) (Some q)) = Some (g (AggRow l c t))) →
  (∀ l, h (NRow l None None None) = None) →
  (∀ l, group key df l = [] → g (agg key Completed df l) = 0) →
  (λ row, default 0 (h row))
    <$> reindex labels (with_rate (groupby String.le key Completed df))
  = (λ l, g (agg key Completed df l)) <$> labels.
Proof.
  intros Hsome Hnone Hzero. unfold reindex. rewrite <- list_fmap_compose.
  apply list_fmap_ext. intros _ l _. simpl.
  destruct (list_find _ _) as [[i [r q]]|] eqn:Hfind.
  - apply list_find_Some in Hfind as (Hi & Hlab & _). simpl in Hlab.
    apply list_elem_of_lookup_2 in Hi.
    apply list_elem_of_fmap in Hi as (r' & [= -> ->] & Hr').
    apply elem_of_groupby in Hr' as (fr & _ & ->). simpl in Hlab. subst l.
    by rewrite Hsome.
  - rewrite Hnone. simpl. symmetry. apply Hzero.
    apply list_find_None in Hfind. rewrite Forall_forall in Hfind.
    destruct (group key df l) as [|fr rest] eqn:Hg; [done|]. exfalso.
    assert (fr ∈ group key df l) as Hin by (rewrite Hg; left).
    apply list_elem_of_filter in Hin as [Hk Hin].
    apply (Hfind (agg key Completed df l, rate (Completed_Tasks (agg key Completed df l))
                                               (Total_Tasks (agg key Completed df l)))).
    + apply list_elem_of_fmap. exists (agg key Completed df l). split; [done|].
      apply elem_of_groupby. exists fr. by rewrite Hk.
    + done.
Qed.

(** X11. No record is lost between the views: reading NaN as 0, the
    totals of the seven daywise rows add up to the overall total, and so do
    the totals of the heatmap rows; the same holds for the completed
    counts. *)
Theorem daywise_heatmap_sums (to_datetime : string → result cdate) (s : db) :
  progress s ≠ [] → dates_parse to_datetime s →
  ∃ st, calculate_statistics to_datetime s = Ok (Some st)
    ∧ sum_Z ((λ row, default 0 (n_Total row)) <$> daywise st) = total_tasks (overall st)
    ∧ sum_Z ((λ row, default 0 (n_Completed row)) <$> daywise st)
      = completed_tasks (overall st)
    ∧ sum_Z (Total_Tasks <$> heatmap st) = total_tasks (overall st)
    ∧ sum_Z (Completed_Tasks <$> heatmap st) = completed_tasks (overall st).
Proof.
  intros Hne Hp.
  destruct (calculate_statistics_some to_datetime s Hne Hp)
    as (df & st & Hf & Hst & Ho & _ & _ & Hd & Hh).
  exists st. split; [done|]. rewrite Ho, Hd, Hh.
  cbn [total_tasks completed_tasks].
  rewrite groupby_sum_total, groupby_sum_completed.
  rewrite (reindex_cells Day_Name df Total_Tasks n_Total); [|done|done|].
  2:{ intros l Hl. simpl. by rewrite Hl. }
  rewrite (reindex_cells Day_Name df Completed_Tasks n_Completed); [|done|done|].
  2:{ intros l Hl. simpl. by rewrite Hl. }
  assert (∀ r, r ∈ df → Day_Name r ∈ day_names) as Hcov
    by (intros r _; apply day_name_in_day_names).
  split; [|split; [|done]].
  - rewrite <- (sum_Z_ones df).
    rewrite <- (sum_partition Day_Name (λ _, 1) day_names df day_names_NoDup Hcov).
    apply sum_Z_ext. intros l. simpl. by rewrite sum_Z_ones.
  - by rewrite <- (sum_partition Day_Name Completed day_names df day_names_NoDup Hcov).
Qed.

Lemma daywise_heatmap_sums_witness :
  ∃ st, calculate_statistics strptime_Ymd sample_db = Ok (Some st)
    ∧ sum_Z ((λ row, default 0 (n_Total row)) <$> daywise st) = total_tasks (overall st)
    ∧ sum_Z (Total_Tasks <$> heatmap st) = total_tasks (overall st).
Proof.
  destruct (daywise_heatmap_sums strptime_Ymd sample_db
              sample_db_nonempty sample_db_dates_parse)
    as (st & Hst & H1 & _ & H3 & _).
  by exists st.
Defined.

(** ** The heatmap against the daily view *)

Global Instance pair_le_trans {A B} (R1 : relation A) (R2 : relation B)
  `{!Transitive R1, !AntiSymm (=) R1, !Transitive R2} : Transitive (pair_le R1 R2).
Proof.
  intros [a1 b1] [a2 b2] [a3 b3]. unfold pair_le. simpl.
  intros [[Hne12 H12]|[-> H12]] [[Hne23 H23]|[-> H23]].
  - left. split; [|by etrans]. intros ->. apply Hne12. by apply (anti_symm R1).
  - left. done.
  - left. done.
  - right. split; [done|by etrans].
Qed.

Global Instance pair_le_total {A B} `{EqDecision A} (R1 : relation A) (R2 : relation B)
  `{!Total R1, !Total R2} : Total (pair_le R1 R2).
Proof.
  intros [a1 b1] [a2 b2]. unfold pair_le. simpl.
  destruct (decide (a1 = a2)) as [->|Hne].
  - destruct (total R2 b1 b2); [left|right]; right; done.
  - destruct (total R1 a1 a2); [left|right]; left; split; congruence.
Qed.

Global Instance pair_le_antisym {A B} (R1 : relation A) (R2 : relation B)
  `{!AntiSymm (=) R1, !AntiSymm (=) R2} : AntiSymm (=) (pair_le R1 R2).
Proof.
  intros [a1 b1] [a2 b2]. unfold pair_le. simpl.
  intros [[Hne H12]|[-> H12]] [[Hne' H21]|[Heq H21]]; try congruence.
  - exfalso. apply Hne. by apply (anti_symm R1).
  - f_equal. by apply (anti_symm R2).
Qed.

Lemma heatmap_keys (df : list frame_row) :
  group_keys (pair_le date_le String.le) (λ r, (Date r, Day_Name r)) df
  = (λ d, (d, day_name d)) <$> group_keys date_le Date df.
Proof.
  assert (Inj (=) (=) (λ d : cdate, (d, day_name d))) as Hinj
    by (intros d1 d2 [= ->]; done).
  apply (StronglySorted_unique (pair_le date_le String.le)).
  - apply group_keys_sorted; apply _.
  - apply (StronglySorted_fmap _ (λ x y, date_le x y ∧ x ≠ y)).
    + intros x y [Hle Hne]. left. done.
    + apply (group_keys_strict date_le Date df).
  - apply NoDup_Permutation.
    + apply group_keys_NoDup.
    + apply NoDup_fmap_2; [done|apply group_keys_NoDup].
    + intros [d n]. rewrite elem_of_group_keys, list_elem_of_fmap. split.
      * intros (r & Hr & [= <- <-]). exists (Date r). split; [done|].
        apply elem_of_group_keys. eauto.
      * intros (d' & [= -> ->] & (r & Hr & <-)%elem_of_group_keys). eauto.
Qed.

(** X12. The heatmap is the daily view with the weekday name of each date
    put beside it: the same dates in the same order, with the same
    counts. *)
Theorem heatmap_is_daily (to_datetime : string → result cdate) (s : db) :
  progress s ≠ [] → dates_parse to_datetime s →
  ∃ st, calculate_statistics to_datetime s = Ok (Some st)
    ∧ heatmap st
      = (λ row, AggRow (label row.1, day_name (label row.1))
                  (Completed_Tasks row.1) (Total_Tasks row.1)) <$> daily st.
Proof.
  intros Hne Hp.
  destruct (calculate_statistics_some to_datetime s Hne Hp)
    as (df & st & Hf & Hst & _ & Hd & _ & _ & Hh).
  exists st. split; [done|]. rewrite Hd, Hh.
  rewrite (with_rate_fmap (λ r, AggRow (label r, day_name (label r))
                                  (Completed_Tasks r) (Total_Tasks r))).
  unfold groupby. rewrite heatmap_keys, <- !list_fmap_compose.
  apply list_fmap_ext. intros _ d _. simpl. unfold agg, group. simpl.
  assert (filter (λ r, (Date r, Day_Name r) = (d, day_name d)) df
          = filter (λ r, Date r = d) df) as ->; [|done].
  apply list_filter_iff. intros r. split; [by intros [= ? ?]|by intros <-].
Qed.

Lemma heatmap_is_daily_witness :
  ∃ st, calculate_statistics strptime_Ymd sample_db = Ok (Some st)
    ∧ heatmap st
      = (λ row, AggRow (label row.1, day_name (label row.1))
                  (Completed_Tasks row.1) (Total_Tasks row.1)) <$> daily st.
Proof.
  exact (heatmap_is_daily strptime_Ymd sample_db
           sample_db_nonempty sample_db_dates_parse).
Defined.

(** ** The page of today's tasks *)

Lemma get_progress_update_eq d t b s :
  get_progress d (update_progress d t b s) !! t = Some b.
Proof.
  unfold get_progress. rewrite update_progress_rows.
  by rewrite dict_of_snoc, lookup_insert_eq, bool_of_int_of_bool.
Qed.

Lemma get_progress_update_ne d t b s t' :
  t' ≠ t → get_progress d (update_progress d t b s) !! t' = get_progress d s !! t'.
Proof.
  intros Hne. unfold get_progress. rewrite update_progress_rows.
  rewrite dict_of_app_lookup_ne by done. by apply dict_of_filter_ne.
Qed.

Lemma dict_set_fresh (k : Z) (v : bool) (d : list (Z * bool)) :
  k ∉ d.*1 → dict_set k v d = d ++ [(k, v)].
Proof.
  induction d as [|[k' v'] d IH]; [done|].
  rewrite fmap_cons. intros [Hne Hout]%not_elem_of_cons. simpl in *.
  rewrite decide_False by done. by rewrite IH.
Qed.

Lemma dict_set_length (k : Z) (v : bool) (d : list (Z * bool)) :
  (length (dict_set k v d) ≤ S (length d))%nat.
Proof.
  induction d as [|[k' v'] d IH]; simpl; [lia|].
  case_decide; simpl; lia.
Qed.

(** With distinct keys the dict built by the first loop lists the tasks in
    their order. *)
Lemma dict_of_tasks (cb : Z * string → bool) (tasks : list (Z * string)) :
  NoDup tasks.*1 →
  foldl (λ acc row, dict_set row.1 (cb row) acc) [] tasks
  = (λ row, (row.1, cb row)) <$> tasks.
Proof.
  induction tasks as [|row tasks IH] using rev_ind; intros Hnd; [done|].
  rewrite fmap_app in Hnd. apply NoDup_app in Hnd as (Hnd & Hdisj & _).
  rewrite foldl_app, fmap_app. simpl. rewrite (IH Hnd).
  apply dict_set_fresh. rewrite <- list_fmap_compose.
  intros Hin. apply (Hdisj row.1); [|left].
  clear -Hin. induction tasks as [|x tasks IH]; [done|].
  rewrite fmap_cons in Hin |- *. apply elem_of_cons in Hin as [->|Hin]; [left|right; auto].
Qed.

Lemma dict_of_tasks_length (cb : Z * string → bool) (tasks : list (Z * string)) :
  (length (foldl (λ acc row, dict_set row.1 (cb row) acc) [] tasks) ≤ length tasks)%nat.
Proof.
  induction tasks as [|row tasks IH] using rev_ind; [done|].
  rewrite foldl_app, length_app. simpl.
  pose proof (dict_set_length row.1 (cb row)
                (foldl (λ acc row, dict_set row.1 (cb row) acc) [] tasks)).
  lia.
Qed.

Section write_back.
Variable d : string.

Lemma write_back_tasks s items : tasks (write_back d s items) = tasks s.
Proof.
  unfold write_back. induction items as [|kv items IH] using rev_ind; [done|].
  by rewrite foldl_app.
Qed.

Lemma write_back_other_date s items d' :
  d' ≠ d →
  filter (λ r, date r = d') (progress (write_back d s items))
  = filter (λ r, date r = d') (progress s).
Proof.
  intros Hd. unfold write_back.
  induction items as [|kv items IH] using rev_ind; [done|].
  rewrite foldl_app. cbn [foldl]. by rewrite update_progress_other_date.
Qed.

Lemma write_back_out s items k :
  k ∉ items.*1 → get_progress d (write_back d s items) !! k = get_progress d s !! k.
Proof.
  unfold write_back. induction items as [|[k' v] items IH] using rev_ind; [done|].
  rewrite fmap_app, not_elem_of_app, foldl_app. cbn [foldl fst snd fmap list_fmap].
  intros [Hout Hne%not_elem_of_cons]. rewrite get_progress_update_ne by tauto. auto.
Qed.

Lemma write_back_in s items k v :
  NoDup items.*1 → (k, v) ∈ items → get_progress d (write_back d s items) !! k = Some v.
Proof.
  unfold write_back. induction items as [|[k' v'] items IH] using rev_ind.
  - intros _ Hin. by apply elem_of_nil in Hin.
  - rewrite fmap_app. intros (Hnd & Hdisj & _)%NoDup_app.
    rewrite foldl_app. cbn [foldl fst snd].
    intros [Hin|Hin%list_elem_of_singleton]%elem_of_app.
    + rewrite get_progress_update_ne; [by apply IH|].
      intros ->. apply (Hdisj k'); [|left].
      apply list_elem_of_fmap. by exists (k', v).
    + injection Hin as -> ->. apply get_progress_update_eq.
Qed.
End write_back.

Lemma ratio_bounds (c t : Z) :
  0 ≤ c ≤ t → 1 ≤ t → (0 <= inject_Z c / inject_Z t)%Q ∧ (inject_Z c / inject_Z t <= 1)%Q.
Proof.
  intros Hc Ht. split.
  - apply Qle_shift_div_l; [change 0%Q with (inject_Z 0); rewrite <- Zlt_Qlt; lia|].
    rewrite Qmult_0_l. change 0%Q with (inject_Z 0). rewrite <- Zle_Qle. lia.
  - apply Qle_shift_div_r; [change 0%Q with (inject_Z 0); rewrite <- Zlt_Qlt; lia|].
    rewrite Qmult_1_l. rewrite <- Zle_Qle. lia.
Qed.

Lemma get_tasks_ids_NoDup d s : unique_ids s → NoDup (get_tasks d s).*1.
Proof.
  unfold unique_ids, get_tasks. intros Hu. rewrite <- list_fmap_compose.
  by apply (NoDup_fmap_filter id).
Qed.

(** X13. One run of the page without a reset records the state of every
    checkbox of the day: afterwards [get_progress] of today maps each task
    of the weekday to what its checkbox returned, where the box was offered
    the stored value, or [False] for a task without record.  So merely
    opening the page gives every task of the day a record.  Entries of
    other task ids, the rows of other dates and the tasks are untouched. *)
Theorem show_today_tasks_writes (today : cdate)
    (checkbox : string → bool → string * Z → bool) (s : db) :
  unique_ids s → get_tasks (day_name today) s ≠ [] →
  ∃ s' c t q,
    show_today_tasks today false checkbox s = Rendered s' c t q
    ∧ (∀ i label, (i, label) ∈ get_tasks (day_name today) s →
         get_progress (strftime_Ymd today) s' !! i
         = Some (checkbox label
                   (default false (get_progress (strftime_Ymd today) s !! i))
                   (strftime_Ymd today, i)))
    ∧ (∀ i, i ∉ (get_tasks (day_name today) s).*1 →
         get_progress (strftime_Ymd today) s' !! i
         = get_progress (strftime_Ymd today) s !! i)
    ∧ (∀ d', d' ≠ strftime_Ymd today →
         filter (λ r, date r = d') (progress s') = filter (λ r, date r = d') (progress s))
    ∧ tasks s' = tasks s.
Proof.
  intros Hu Hne. unfold show_today_tasks. cbv zeta.
  assert ((0 <? Z.of_nat (length (get_tasks (day_name today) s))) = true) as ->.
  { apply Z.ltb_lt. destruct (get_tasks _ s); [done|]. rewrite length_cons. lia. }
  do 4 eexists. split; [reflexivity|].
  pose proof (get_tasks_ids_NoDup (day_name today) s Hu) as Hnd.
  rewrite (dict_of_tasks _ _ Hnd). fold (write_back (strftime_Ymd today) s).
  split; [|split; [|split]].
  - intros i label Hin. apply write_back_in.
    + by rewrite <- list_fmap_compose.
    + apply list_elem_of_fmap. by exists (i, label).
  - intros i Hout. apply write_back_out. by rewrite <- list_fmap_compose.
  - intros d' Hd. by apply write_back_other_date.
  - apply write_back_tasks.
Qed.

Lemma show_today_tasks_writes_witness :
  ∃ s' c t q,
    show_today_tasks (CDate 2024 1 8) false (λ _ value _, value) sample_db
    = Rendered s' c t q
    ∧ get_progress "2024-01-08" s' !! 1 = Some false
    ∧ get_progress "2024-01-08" s' !! 2 = Some false.
Proof.
  assert (unique_ids sample_db) as Hu.
  { unfold unique_ids. apply (bool_decide_unpack _). by vm_compute. }
  destruct (show_today_tasks_writes (CDate 2024 1 8) (λ _ value _, value) sample_db Hu)
    as (s' & c & t & q & Hrun & Hin & _); [by vm_compute|].
  exists s', c, t, q. split; [done|]. split.
  - apply (Hin 1 "a"). apply list_elem_of_In. vm_compute. tauto.
  - apply (Hin 2 "b"). apply list_elem_of_In. vm_compute. tauto.
Defined.

Lemma filter_ticked (cb : Z * string → bool) (l : list (Z * string)) :
  length (filter (λ kv : Z * bool, kv.2 = true) ((λ row, (row.1, cb row)) <$> l))
  = length (filter (λ row, cb row = true) l).
Proof.
  induction l as [|row l IH]; [done|].
  rewrite fmap_cons, !filter_cons. cbn [snd].
  destruct (decide (cb row = true)) as [Hc|Hc]; [by rewrite !length_cons, IH|done].
Qed.

(** X14. What a run of the page shows and leaves behind: after a click on
    the reset button the records of today are gone and nothing is written;
    a day without tasks leaves the store as it is; otherwise the total is
    the number of tasks of the weekday, the completed count is the number
    of ticked boxes and never exceeds the total, and the ratio handed to
    the progress bar lies between 0 and 1. *)
Theorem show_today_tasks_outcome (today : cdate) (reset_clicked : bool)
    (checkbox : string → bool → string * Z → bool) (s : db) :
  match show_today_tasks today reset_clicked checkbox s with
  | Rerun s' =>
      reset_clicked = true ∧ s' = reset_progress (strftime_Ymd today) s
      ∧ get_progress (strftime_Ymd today) s' = ∅
  | NoTasks s' =>
      reset_clicked = false ∧ s' = s ∧ get_tasks (day_name today) s = []
  | Rendered s' c t q =>
      reset_clicked = false
      ∧ t = Z.of_nat (length (get_tasks (day_name today) s))
      ∧ 0 ≤ c ≤ t ∧ 1 ≤ t
      ∧ (0 <= q)%Q ∧ (q <= 1)%Q
      ∧ (unique_ids s →
           c = Z.of_nat (length (filter
                 (λ row, checkbox row.2
                           (default false (get_progress (strftime_Ymd today) s !! row.1))
                           (strftime_Ymd today, row.1) = true)
                 (get_tasks (day_name today) s))))
  end.
Proof.
  unfold show_today_tasks. cbv zeta. destruct reset_clicked.
  - split; [done|]. split; [done|].
    unfold get_progress. simpl. by rewrite filter_date_reset, decide_True.
  - destruct (0 <? Z.of_nat (length (get_tasks (day_name today) s))) eqn:Hpos.
    + apply Z.ltb_lt in Hpos.
      set (cb := λ row : Z * string,
             checkbox row.2
               (default false (get_progress (strftime_Ymd today) s !! row.1))
               (strftime_Ymd today, row.1)).
      set (items := foldl (λ acc row, dict_set row.1 (cb row) acc) []
                      (get_tasks (day_name today) s)).
      assert (0 ≤ Z.of_nat (length (filter (λ kv, kv.2 = true) items))
              ≤ Z.of_nat (length (get_tasks (day_name today) s))) as Hc.
      { pose proof (length_filter (λ kv : Z * bool, kv.2 = true) items).
        pose proof (dict_of_tasks_length cb (get_tasks (day_name today) s)).
        subst items. lia. }
      split; [done|]. split; [done|]. split; [done|]. split; [lia|].
      split; [by apply ratio_bounds; [|lia]|]. split; [by apply ratio_bounds; [|lia]|].
      intros Hu. subst items.
      rewrite (dict_of_tasks cb _ (get_tasks_ids_NoDup _ s Hu)). f_equal.
      apply filter_ticked.
    + split; [done|]. split; [done|].
      destruct (get_tasks (day_name today) s); [done|].
      apply Z.ltb_ge in Hpos. rewrite length_cons in Hpos. lia.
Qed.

Lemma write_back_inv d s items :
  (∃ dobj, strptime_Ymd d = Ok dobj) →
  store_inv s → unique_keys s →
  store_inv (write_back d s items) ∧ unique_keys (write_back d s items).
Proof.
  intros Hd Hs Hk. unfold write_back.
  induction items as [|[k v] items [IH1 IH2]] using rev_ind; [done|].
  rewrite foldl_app. cbn [foldl fst snd]. split.
  - by apply (store_inv_step _ (UpdateProgress d k v)).
  - by apply (unique_keys_step _ (UpdateProgress d k v)).
Qed.

(** X15. A run of the page keeps the store well formed: with a valid date
    from the year 1000 on as today, whatever the button and the checkboxes
    return, the store it leaves has a 0/1 [completed] column, dates that
    parse, unique task ids and one row per (date, task id). *)
Theorem show_today_tasks_keeps_invariants (today : cdate) (reset_clicked : bool)
    (checkbox : string → bool → string * Z → bool) (s : db) :
  valid_date today = true → 1000 ≤ year today →
  store_inv s → unique_keys s →
  store_inv (outcome_db (show_today_tasks today reset_clicked checkbox s))
  ∧ unique_keys (outcome_db (show_today_tasks today reset_clicked checkbox s)).
Proof.
  intros Hv Hy Hs Hk. unfold show_today_tasks. cbv zeta.
  destruct reset_clicked; simpl.
  - split.
    + by apply (store_inv_step s (ResetProgress (strftime_Ymd today))).
    + by apply (unique_keys_step s (ResetProgress (strftime_Ymd today))).
  - destruct (0 <? _); simpl; [|done].
    apply write_back_inv; [|done|done].
    exists today. by apply strptime_strftime_valid.
Qed.

Lemma show_today_tasks_keeps_invariants_witness :
  store_inv (outcome_db (show_today_tasks (CDate 2024 1 8) false (λ _ _ _, true) sample_db)).
Proof.
  assert (store_inv sample_db) as Hs.
  { apply (store_inv_run
             [AddTask "Monday" "a"; AddTask "Monday" "b"; AddTask "Tuesday" "c";
              UpdateProgress "2024-01-01" 1 true; UpdateProgress "2024-01-01" 2 true;
              UpdateProgress "2024-01-02" 3 false]).
    repeat constructor; by eexists. }
  assert (unique_keys sample_db) as Hk.
  { unfold unique_keys. apply (bool_decide_unpack _). by vm_compute. }
  apply (show_today_tasks_keeps_invariants (CDate 2024 1 8) false (λ _ _ _, true)
           sample_db); [reflexivity|simpl; lia|done|done].
Defined.

(** ** Date strings in order *)

Lemma digit_char_compare (a b : Z) :
  0 ≤ a ≤ 9 → 0 ≤ b ≤ 9 → Ascii.compare (digit_char a) (digit_char b) = (a ?= b).
Proof.
  intros Ha Hb. unfold Ascii.compare, digit_char.
  rewrite !N_ascii_embedding by lia.
  rewrite Z2N.inj_compare by lia. apply Z.add_compare_mono_l.
Qed.

Ltac digit_bounds := Z.div_mod_to_equations; lia.

Lemma strftime_compare (d1 d2 : cdate) :
  valid_date d1 = true → 1000 ≤ year d1 →
  valid_date d2 = true → 1000 ≤ year d2 →
  (strftime_Ymd d1 ?= strftime_Ymd d2)%string
  = match year d1 ?= year d2 with
    | Eq => match month d1 ?= month d2 with
            | Eq => mday d1 ?= mday d2
            | c => c
            end
    | c => c
    end.
Proof.
  intros Hv1 Hy1 Hv2 Hy2.
  pose proof (days_in_month_le (year d1) (month d1)) as Hdim1.
  pose proof (days_in_month_le (year d2) (month d2)) as Hdim2.
  unfold valid_date in Hv1, Hv2.
  repeat (apply andb_prop in Hv1 as [Hv1 ?]). repeat (apply andb_prop in Hv2 as [Hv2 ?]).
  repeat match goal with H : (_ <=? _) = true |- _ => apply Z.leb_le in H end.
  destruct d1 as [y1 m1 k1], d2 as [y2 m2 k2]. simpl in *.
  unfold strftime_Ymd, digits_Y, digits2. simpl year. simpl month. simpl mday.
  rewrite !(proj2 (Z.ltb_ge _ _)) by lia.
  cbn [app string_of_list_ascii String.compare].
  rewrite !digit_char_compare by digit_bounds.
  change (Ascii.compare "-" "-") with Eq. cbv iota.
  repeat match goal with
         | |- context [?a ?= ?b] =>
             lazymatch a with
             | context [Z.div] => idtac
             | context [Z.modulo] => idtac
             end;
             destruct (Z.compare_spec a b)
         end;
  repeat match goal with
         | |- context [?a ?= ?b] => destruct (Z.compare_spec a b)
         end;
  try reflexivity; exfalso; digit_bounds.
Qed.

(** X16. On the date strings that the pages write the order of the
    strings is the order of the dates: [ORDER BY date] and the sort on the
    date string are chronological, for valid dates from the year 1000 on. *)
Theorem strftime_order (d1 d2 : cdate) :
  valid_date d1 = true → 1000 ≤ year d1 →
  valid_date d2 = true → 1000 ≤ year d2 →
  String.le (strftime_Ymd d1) (strftime_Ymd d2) ↔ date_le d1 d2.
Proof.
  intros Hv1 Hy1 Hv2 Hy2. unfold String.le, String.leb.
  rewrite (strftime_compare d1 d2 Hv1 Hy1 Hv2 Hy2). unfold date_le.
  destruct (Z.compare_spec (year d1) (year d2));
    destruct (Z.compare_spec (month d1) (month d2));
    destruct (Z.compare_spec (mday d1) (mday d2));
    simpl; split; intros; try done; lia.
Qed.

Lemma strftime_order_witness :
  String.le (strftime_Ymd (CDate 2023 12 31)) (strftime_Ymd (CDate 2024 1 1)).
Proof.
  apply strftime_order; try reflexivity; try (simpl; lia).
  unfold date_le. simpl. lia.
Defined.

(** ** Today's page against the weekly page *)

Lemma filter_key_date d k (l : list progress_row) :
  filter (λ r, date r = d) (filter (λ r, ¬ (date r = d ∧ task_id r = k)) l)
  = filter (λ r, task_id r ≠ k) (filter (λ r, date r = d) l).
Proof.
  induction l as [|r l IH]; [done|].
  rewrite !filter_cons.
  destruct (decide (date r = d)) as [Hd|Hd]; destruct (decide (task_id r = k)) as [Hk|Hk].
  - rewrite decide_False by tauto. by rewrite filter_cons, decide_False by tauto.
  - rewrite decide_True by tauto. rewrite !filter_cons, !decide_True by done.
    by f_equal.
  - rewrite decide_True by tauto. by rewrite filter_cons, decide_False.
  - rewrite decide_True by tauto. by rewrite filter_cons, decide_False.
Qed.

Lemma filter_all {A} (P : A → Prop) `{∀ x, Decision (P x)} (l : list A) :
  (∀ x, x ∈ l → P x) → filter P l = l.
Proof.
  induction l as [|x l IH]; intros Hall; [done|].
  rewrite filter_cons, decide_True by (apply Hall; left).
  f_equal. apply IH. intros y Hy. apply Hall. by right.
Qed.

(** The rows of the date after the write-back: the rows of other task ids
    first, then one row per item, in the order of the dict. *)
Lemma write_back_rows d s (items : list (Z * bool)) :
  NoDup items.*1 →
  filter (λ r, date r = d) (progress (write_back d s items))
  = filter (λ r, task_id r ∉ items.*1) (filter (λ r, date r = d) (progress s))
    ++ ((λ kv, ProgressRow d kv.1 (int_of_bool kv.2)) <$> items).
Proof.
  unfold write_back. induction items as [|[k v] items IH] using rev_ind; intros Hnd.
  - simpl. rewrite app_nil_r. symmetry. apply filter_all.
    intros r _ Hin. by apply elem_of_nil in Hin.
  - rewrite fmap_app in Hnd. apply NoDup_app in Hnd as (Hnd & Hdisj & _).
    rewrite foldl_app. cbn [foldl fst snd]. unfold update_progress at 1. cbn [progress].
    rewrite filter_app, filter_cons, filter_nil, decide_True by done.
    rewrite filter_key_date, (IH Hnd), filter_app, !fmap_app, <- app_assoc.
    f_equal; [|f_equal].
    + rewrite list_filter_filter. apply list_filter_iff. intros r.
      rewrite not_elem_of_app. simpl. rewrite list_elem_of_singleton. tauto.
    + apply filter_all. intros r (kv & -> & Hin)%list_elem_of_fmap. simpl.
      intros Hk. apply (Hdisj k); [|left]. apply list_elem_of_fmap. by exists kv.
Qed.

Lemma filter_none {A} (P : A → Prop) `{∀ x, Decision (P x)} (l : list A) :
  (∀ x, x ∈ l → ¬ P x) → filter P l = [].
Proof.
  induction l as [|x l IH]; intros Hall; [done|].
  rewrite filter_cons, decide_False by (apply Hall; left).
  apply IH. intros y Hy. apply Hall. by right.
Qed.

Lemma completed_rows_length d (items : list (Z * bool)) :
  length (filter (λ r, completed r = 1)
            ((λ kv, ProgressRow d kv.1 (int_of_bool kv.2)) <$> items))
  = length (filter (λ kv : Z * bool, kv.2 = true) items).
Proof.
  induction items as [|[k v] items IH]; [done|].
  rewrite fmap_cons, !filter_cons. cbn [completed snd].
  destruct v; cbn [int_of_bool].
  - rewrite (decide_True (P := 1 = 1)), (decide_True (P := true = true)) by done.
    by rewrite !length_cons, IH.
  - rewrite (decide_False (P := 0 = 1)), (decide_False (P := false = true)) by done.
    done.
Qed.

(** After the write-back of a dict that covers every task id recorded for
    the date, the completed records of the date are the ticked items. *)
Lemma write_back_completed_on d s (items : list (Z * bool)) :
  NoDup items.*1 →
  (∀ r, r ∈ progress s → date r = d → task_id r ∈ items.*1) →
  completed_on (write_back d s items) d
  = Z.of_nat (length (filter (λ kv : Z * bool, kv.2 = true) items)).
Proof.
  intros Hnd Hcov. unfold completed_on. f_equal.
  rewrite <- completed_rows_length with (d := d).
  assert (filter (λ r, date r = d ∧ completed r = 1) (progress (write_back d s items))
          = filter (λ r, completed r = 1)
              (filter (λ r, date r = d) (progress (write_back d s items)))) as ->.
  { rewrite list_filter_filter. apply list_filter_iff. tauto. }
  rewrite (write_back_rows d s items Hnd).
  rewrite (filter_none (λ r, task_id r ∉ items.*1)); [done|].
  intros r [Hd Hr]%list_elem_of_filter Hout. apply Hout. by apply Hcov.
Qed.

(** X5. The two pages agree on today: when every record of today's date
    belongs to a task of today's weekday, a run of the page of today's
    tasks leaves a store in which [get_weekly_progress] shows, for today's
    date, completed / total * 100 of the very counts that the page
    displayed. *)
Theorem today_matches_weekly (today : cdate)
    (checkbox : string → bool → string * Z → bool) (s : db) :
  valid_date today = true → 1000 ≤ year today →
  store_inv s → unique_keys s →
  get_tasks (day_name today) s ≠ [] →
  (∀ r, r ∈ progress s → date r = strftime_Ymd today →
        task_id r ∈ (get_tasks (day_name today) s).*1) →
  ∃ s' c t q rows,
    show_today_tasks today false checkbox s = Rendered s' c t q
    ∧ get_weekly_progress s' = Ok rows
    ∧ (strftime_Ymd today, rate c t) ∈ rows.
Proof.
  intros Hv Hy Hs Hk Hne Hcov.
  pose proof Hs as (_ & _ & Hu & _).
  pose proof (strptime_strftime_valid today Hv Hy) as Hparse.
  set (d := strftime_Ymd today) in *.
  set (cb := λ row : Z * string,
         checkbox row.2 (default false (get_progress d s !! row.1)) (d, row.1)).
  set (items := (λ row, (row.1, cb row)) <$> get_tasks (day_name today) s).
  assert (items.*1 = (get_tasks (day_name today) s).*1) as Hkeys
    by (subst items; by rewrite <- list_fmap_compose).
  assert (NoDup items.*1) as Hnd by (rewrite Hkeys; by apply get_tasks_ids_NoDup).
  assert (0 < Z.of_nat (length (get_tasks (day_name today) s))) as Hpos.
  { destruct (get_tasks _ s); [done|]. rewrite length_cons. lia. }
  destruct (write_back_inv d s items) as [(_ & Hdp & _) _]; [by exists today|done|done|].
  destruct (get_weekly_progress_rows _ Hdp) as (data & Hrows & Hfst & Hall).
  exists (write_back d s items),
         (Z.of_nat (length (filter (λ kv : Z * bool, kv.2 = true) items))),
         (Z.of_nat (length (get_tasks (day_name today) s))).
  eexists. exists (merge_sort (by_key String.le fst) data).
  split; [|split; [done|]].
  - unfold show_today_tasks. cbv zeta. fold d.
    rewrite (proj2 (Z.ltb_lt _ _) Hpos).
    rewrite (dict_of_tasks cb _ (get_tasks_ids_NoDup _ s Hu)). reflexivity.
  - rewrite merge_sort_Permutation.
    assert (d ∈ fst <$> data) as (row & Hd & Hrow)%list_elem_of_fmap.
    { rewrite Hfst, merge_sort_Permutation, elem_of_remove_dups.
      pose proof (write_back_rows d s items Hnd) as Hwb.
      destruct items as [|kv items'] eqn:Hitems.
      { subst items. by destruct (get_tasks (day_name today) s). }
      assert (ProgressRow d kv.1 (int_of_bool kv.2)
                ∈ filter (λ r, date r = d) (progress (write_back d s (kv :: items'))))
        as [_ Hin]%list_elem_of_filter.
      { rewrite Hwb. apply elem_of_app. right. rewrite fmap_cons. left. }
      apply list_elem_of_fmap.
      exists (ProgressRow d kv.1 (int_of_bool kv.2)). by split. }
    rewrite Forall_forall in Hall. destruct (Hall row Hrow) as (dobj & Hdobj & Hpct).
    rewrite <- Hd, Hparse in Hdobj. injection Hdobj as <-.
    assert (assigned_count (write_back d s items) today
            = Z.of_nat (length (get_tasks (day_name today) s))) as Hassigned.
    { unfold assigned_count. by rewrite write_back_tasks, get_tasks_length. }
    rewrite Hassigned, (proj2 (Z.ltb_lt _ _) Hpos), <- Hd in Hpct.
    rewrite write_back_completed_on in Hpct; [|done|].
    + destruct row as [d' p]. simpl in Hd, Hpct. by subst.
    + intros r Hr Hdr. rewrite Hkeys. by apply Hcov.
Qed.

Lemma today_matches_weekly_witness :
  ∃ s' c t q rows,
    show_today_tasks (CDate 2024 1 8) false (λ _ _ _, true) sample_db
    = Rendered s' c t q
    ∧ get_weekly_progress s' = Ok rows
    ∧ ("2024-01-08", rate c t) ∈ rows.
Proof.
  apply (today_matches_weekly (CDate 2024 1 8) (λ _ _ _, true) sample_db).
  - reflexivity.
  - simpl. lia.
  - apply (store_inv_run
             [AddTask "Monday" "a"; AddTask "Monday" "b"; AddTask "Tuesday" "c";
              UpdateProgress "2024-01-01" 1 true; UpdateProgress "2024-01-01" 2 true;
              UpdateProgress "2024-01-02" 3 false]).
    repeat constructor; by eexists.
  - unfold unique_keys. apply (bool_decide_unpack _). by vm_compute.
  - by vm_compute.
  - intros r Hr%list_elem_of_In Hd. vm_compute in Hr.
    destruct Hr as [<-|[<-|[<-|[]]]]; by vm_compute in Hd.
Defined.

(** ** Bounds on the rows of [get_weekly_progress] *)

(** With one row per (date, task id) and no record of a deleted task, the
    completed records of a date are no more than the tasks of its
    weekday. *)
Lemma completed_le_assigned s d dobj :
  unique_keys s → records_assigned s → strptime_Ymd d = Ok dobj →
  completed_on s d ≤ assigned_count s dobj.
Proof.
  intros Hk Ha Hd. unfold completed_on, assigned_count.
  rewrite <- get_tasks_length, <- (length_fmap fst (get_tasks (day_name dobj) s)).
  apply inj_le.
  assert (filter (λ r, date r = d ∧ completed r = 1) (progress s)
          = filter (λ r, completed r = 1) (filter (λ r, date r = d) (progress s))) as ->.
  { rewrite list_filter_filter. apply list_filter_iff. tauto. }
  etrans; [apply length_filter|].
  rewrite <- (length_fmap task_id). apply submseteq_length, NoDup_submseteq.
  - apply (NoDup_task_ids _ d).
    + apply Forall_forall. by intros r [? _]%list_elem_of_filter.
    + by apply NoDup_fmap_filter.
  - intros i (r & -> & [Hr Hin]%list_elem_of_filter)%list_elem_of_fmap.
    unfold records_assigned in Ha. rewrite Forall_forall in Ha.
    specialize (Ha r Hin). by rewrite Hr, Hd in Ha.
Qed.

(** C1, as amended.  On a non-empty log with a 0/1 [completed] column, the
    completed count is at most the total count and the rate lies between 0
    and 100 in the overall, daily, weekly and heatmap views and in every
    daywise row that holds numbers.  A row of [get_weekly_progress] has a
    percentage of at least 0; when the log holds one row per (date, task
    id) and no record of a deleted task, the completed records of its date
    are no more than the tasks of its weekday and the percentage is at
    most 100. *)
Theorem completion_bounds (to_datetime : string → result cdate) (s : db) :
  progress s ≠ [] → bool_column s →
  dates_parse to_datetime s → dates_parse strptime_Ymd s →
  (∃ st, calculate_statistics to_datetime s = Ok (Some st)
     ∧ (0 ≤ completed_tasks (overall st) ≤ total_tasks (overall st)
        ∧ (0 <= completion_rate (overall st))%Q
        ∧ (completion_rate (overall st) <= 100)%Q)
     ∧ (∀ row q, (row, q) ∈ daily st →
          0 ≤ Completed_Tasks row ≤ Total_Tasks row ∧ (0 <= q)%Q ∧ (q <= 100)%Q)
     ∧ (∀ row q, (row, q) ∈ weekly st →
          0 ≤ Completed_Tasks row ≤ Total_Tasks row ∧ (0 <= q)%Q ∧ (q <= 100)%Q)
     ∧ (∀ row c t q, row ∈ daywise st →
          n_Completed row = Some c → n_Total row = Some t → n_Rate row = Some q →
          0 ≤ c ≤ t ∧ (0 <= q)%Q ∧ (q <= 100)%Q)
     ∧ (∀ row, row ∈ heatmap st → 0 ≤ Completed_Tasks row ≤ Total_Tasks row))
  ∧ (∃ rows, get_weekly_progress s = Ok rows
       ∧ (∀ d p, (d, p) ∈ rows → (0 <= p)%Q)
       ∧ (unique_keys s → records_assigned s →
            ∀ d p dobj, (d, p) ∈ rows → strptime_Ymd d = Ok dobj →
              completed_on s d ≤ assigned_count s dobj ∧ (p <= 100)%Q)).
Proof.
  intros Hne Hb Hp Hp'. split.
  - destruct (calculate_statistics_some to_datetime s Hne Hp)
      as (df & st & Hf & Hst & Ho & Hd & Hw & Hdw & Hh).
    exists st. split; [done|]. rewrite Ho, Hd, Hw, Hdw, Hh. cbn [overall].
    split; [|split; [|split; [|split]]].
    + cbn [completed_tasks total_tasks completion_rate].
      rewrite (frame_of_length _ _ _ Hf), (frame_of_sum _ _ _ Hf).
      rewrite <- (length_fmap completed).
      apply overall_bounds; [by destruct (progress s)|by apply Forall_fmap].
    + intros row q. by apply (with_rate_bounds to_datetime (λ d, d) date_le s df).
    + intros row q. by apply (with_rate_bounds to_datetime isoweek Z.le s df).
    + intros row c t q Hrow Hc Ht Hq.
      destruct (decide (n_label row ∈ (λ r, label r.1)
                          <$> with_rate (groupby String.le Day_Name Completed df)))
        as [Hin|Hout].
      * destruct (reindex_present _ _ _ Hrow Hin) as (r & q' & Hrq & _ & Hc' & Ht' & Hq').
        rewrite Hc in Hc'. rewrite Ht in Ht'. rewrite Hq in Hq'.
        injection Hc' as ->. injection Ht' as ->. injection Hq' as ->.
        by apply (with_rate_bounds to_datetime day_name String.le s df).
      * destruct (reindex_missing _ _ _ Hrow Hout) as (Hc' & _). congruence.
    + intros row Hrow.
      by apply (groupby_row_counts to_datetime (λ d, (d, day_name d))
                  (pair_le date_le String.le) s df row Hf Hb).
  - destruct (get_weekly_progress_rows s Hp') as (data & Hrows & _ & Hpct).
    eexists. split; [exact Hrows|]. rewrite Forall_forall in Hpct.
    assert (∀ d p, (d, p) ∈ merge_sort (by_key String.le fst) data →
              ∃ dobj, strptime_Ymd d = Ok dobj
                ∧ (0 <= p)%Q
                ∧ (completed_on s d ≤ assigned_count s dobj → (p <= 100)%Q)) as Hrow.
    { intros d p Hin. rewrite merge_sort_Permutation in Hin.
      destruct (Hpct (d, p) Hin) as (dobj & Hd & Hpd). simpl in Hd, Hpd. subst p.
      exists dobj. split; [done|].
      apply percentage_bounds; unfold completed_on, assigned_count; lia. }
    split.
    + intros d p Hin. by destruct (Hrow d p Hin) as (_ & _ & H0 & _).
    + intros Hk Ha d p dobj Hin Hd.
      destruct (Hrow d p Hin) as (dobj' & Hd' & _ & H100).
      rewrite Hd in Hd'. injection Hd' as <-.
      pose proof (completed_le_assigned s d dobj Hk Ha Hd). auto.
Qed.

Lemma completion_bounds_witness :
  ∃ st rows,
    calculate_statistics strptime_Ymd sample_db = Ok (Some st)
    ∧ get_weekly_progress sample_db = Ok rows
    ∧ 0 ≤ completed_tasks (overall st) ≤ total_tasks (overall st)
    ∧ (completion_rate (overall st) <= 100)%Q
    ∧ (∀ d p dobj, (d, p) ∈ rows → strptime_Ymd d = Ok dobj →
         completed_on sample_db d ≤ assigned_count sample_db dobj ∧ (p <= 100)%Q).
Proof.
  destruct (completion_bounds strptime_Ymd sample_db
              sample_db_nonempty sample_db_bool_column
              sample_db_dates_parse sample_db_dates_parse)
    as [(st & Hst & (Hle & _ & Hq) & _) (rows & Hrows & _ & H100)].
  exists st, rows. repeat (split; [done|]). apply H100.
  - unfold unique_keys. apply (bool_decide_unpack _). by vm_compute.
  - unfold records_assigned.
    repeat (apply Forall_cons; split; [vm_compute; repeat constructor|]).
    constructor.
Defined.
